(** * maxcalorie.hh: the food-pantry knapsack solvers

    A shallow embedding of [src/maxcalorie.hh]: the [FoodItem] record and
    its constructor, the loader [load_food_database], the aggregator
    [sum_food_vector], the filter [filter_food_vector] and the two solvers
    [exhaustive_max_calories] and [dynamic_max_calories], followed by their
    properties.

    Numbers.  The code computes with [double].  There are two embeddings.

    - The integer embedding models the [double] fields (weight, calories,
      capacity) by the integers they hold, as [Z].  It is the code on the
      data where the arithmetic of the code is exact: integer values whose
      magnitudes add up to at most 2^53 ([exact_calories],
      [exact_weights]), so that every sum the code forms is an integer of
      magnitude at most 2^53, which binary64 addition returns exactly.
      Properties that only compare values, or that survive rounding, are
      stated on it without that restriction; properties that need exact
      sums carry it as a hypothesis.

    - The module [Binary64] embeds the aggregator and the two solvers once
      more with the binary64 arithmetic of the code (the primitive floats),
      fractional weights included.  It evaluates the code where rounding
      decides.

    The C++ [int] is a 32-bit two's complement integer; the places where the
    code converts into an [int] are written out with [Int32].

    Failure.  The solvers return [option]: [None] stands for a run that does
    not return a vector (a failed [assert], an out-of-range vector access, a
    signed overflow of a loop counter); [filter_food_vector] returns [None]
    where the code returns [nullptr]. *)

From Stdlib Require Import Ascii String.
From Stdlib Require Import ZArith List Lia Bool Sorted.
From Stdlib Require Floats.
Import ListNotations.
Local Open Scope Z_scope.

(** ** Machine integers *)

Module Int32.

Definition min_int : Z := - 2 ^ 31.
Definition max_int : Z := 2 ^ 31 - 1.

Definition in_range (z : Z) : bool := (min_int <=? z) && (z <=? max_int).

(** [size_t] to [int] (as in [const int n = foods.size()]): reduction
    modulo 2^32 into the signed range. *)
Definition wrap (z : Z) : Z := (z + 2 ^ 31) mod 2 ^ 32 - 2 ^ 31.

(** [double] to [int] (as in [int bitSize = pow(2, n)] and
    [int step = total_weight]), on an integer-valued double.  A value in
    range converts to itself.  Out of range the conversion is undefined in
    C++; the value taken here is the one the x86-64 conversion instruction
    delivers, the "integer indefinite" [min_int]. *)
Definition of_double (x : Z) : Z := if in_range x then x else min_int.

End Int32.

(** ** Partial computations *)

Definition bind {A B : Type} (m : option A) (k : A -> option B) : option B :=
  match m with
  | Some a => k a
  | None => None
  end.

Notation "x <- m ;; k" := (bind m (fun x => k))
  (at level 61, m at next level, right associativity).

Fixpoint mapM {A B : Type} (g : A -> option B) (l : list A) : option (list B) :=
  match l with
  | [] => Some []
  | a :: l' => b <- g a ;; bs <- mapM g l' ;; Some (b :: bs)
  end.

(** The values [0, 1, ..., k-1] of a loop counter; empty when [k <= 0]. *)
Definition zrange (k : Z) : list Z := map Z.of_nat (seq 0 (Z.to_nat k)).

(** ** Data model *)

Record FoodItem : Type := mkFoodItem
  { description : string;
    weight : Z;
    foodCalories : Z }.

(** The two assertions of the [FoodItem] constructor. *)
Definition valid_item (f : FoodItem) : Prop :=
  description f <> EmptyString /\ 0 < weight f.

Definition FoodVector : Type := list FoodItem.

(** ** sum_food_vector *)

(** The two output parameters [total_weight] and [total_calories] are
    returned as a pair. *)
Definition sum_food_vector (foods : FoodVector) : Z * Z :=
  fold_left
    (fun acc food => (fst acc + weight food, snd acc + foodCalories food))
    foods (0, 0).

Definition total_weight_of (foods : FoodVector) : Z := fst (sum_food_vector foods).
Definition total_calories_of (foods : FoodVector) : Z := snd (sum_food_vector foods).

(** ** filter_food_vector *)

Definition in_calorie_range (min_calories max_calories : Z) (food : FoodItem) : bool :=
  (min_calories <=? foodCalories food) && (foodCalories food <=? max_calories).

(** The range-for loop over [source]; the second branch of the inner [if]
    is the [break]. *)
Fixpoint filter_loop (min_calories max_calories total_size : Z)
    (source : FoodVector) (FilteredFoodVector : FoodVector) : FoodVector :=
  match source with
  | [] => FilteredFoodVector
  | food :: rest =>
      if in_calorie_range min_calories max_calories food then
        if Z.of_nat (length FilteredFoodVector) <? total_size then
          filter_loop min_calories max_calories total_size rest
            (FilteredFoodVector ++ [food])
        else FilteredFoodVector
      else filter_loop min_calories max_calories total_size rest FilteredFoodVector
  end.

Definition filter_food_vector (source : FoodVector)
    (min_calories max_calories total_size : Z) : option FoodVector :=
  if total_size <=? 0 then None
  else Some (filter_loop min_calories max_calories total_size source []).

(** ** exhaustive_max_calories *)

(** The local variables that the two nested loops update. *)
Record search_state : Type := mkSearch
  { BestFoodVector : FoodVector;
    bestTotalCalries : Z;
    CandidateFoodVector : FoodVector;
    candTotalWeight : Z;
    candTotalCalories : Z }.

Definition initial_search (foods : FoodVector) : search_state :=
  {| BestFoodVector := [];
     bestTotalCalries := 0;
     CandidateFoodVector := foods;
     candTotalWeight := 0;
     candTotalCalories := 0 |}.

(** Start of an outer iteration: the candidate is cleared. *)
Definition clear_candidate (st : search_state) : search_state :=
  {| BestFoodVector := BestFoodVector st;
     bestTotalCalries := bestTotalCalries st;
     CandidateFoodVector := [];
     candTotalWeight := 0;
     candTotalCalories := 0 |}.

(** Body of [if (((bit >> j) & 1) == 1)]. *)
Definition add_candidate (food : FoodItem) (st : search_state) : search_state :=
  {| BestFoodVector := BestFoodVector st;
     bestTotalCalries := bestTotalCalries st;
     CandidateFoodVector := CandidateFoodVector st ++ [food];
     candTotalWeight := candTotalWeight st + weight food;
     candTotalCalories := candTotalCalories st + foodCalories food |}.

(** The test [if (candTotalWeight <= total_weight)], which the code places
    inside the loop over [j]. *)
Definition update_best (total_weight : Z) (st : search_state) : search_state :=
  if candTotalWeight st <=? total_weight then
    if bestTotalCalries st <? candTotalCalories st then
      {| BestFoodVector := CandidateFoodVector st;
         bestTotalCalries := candTotalCalories st;
         CandidateFoodVector := CandidateFoodVector st;
         candTotalWeight := candTotalWeight st;
         candTotalCalories := candTotalCalories st |}
    else st
  else st.

(** The loop [for (j = 0; j < foods.size(); j++)], entered with the items
    [foods[j], foods[j+1], ...] still to visit. *)
Fixpoint exhaustive_inner (total_weight bit j : Z) (rest : FoodVector)
    (st : search_state) : search_state :=
  match rest with
  | [] => st
  | food :: rest' =>
      let st1 :=
        if Z.land (Z.shiftr bit j) 1 =? 1 then add_candidate food st else st in
      exhaustive_inner total_weight bit (j + 1) rest' (update_best total_weight st1)
  end.

Definition exhaustive_iteration (total_weight : Z) (foods : FoodVector)
    (st : search_state) (bit : Z) : search_state :=
  exhaustive_inner total_weight bit 0 foods (clear_candidate st).

Definition bitSize (foods : FoodVector) : Z :=
  Int32.of_double (2 ^ Z.of_nat (length foods)).

Definition exhaustive_search (foods : FoodVector) (total_weight : Z) : search_state :=
  fold_left (exhaustive_iteration total_weight foods)
    (zrange (bitSize foods)) (initial_search foods).

Definition exhaustive_max_calories (foods : FoodVector) (total_weight : Z)
    : option FoodVector :=
  let n := Int32.wrap (Z.of_nat (length foods)) in
  if n <? 64 then Some (BestFoodVector (exhaustive_search foods total_weight))
  else None.

(** ** dynamic_max_calories *)

(** [row[j]] for a [double] index [j]: converting a negative value to
    [size_t], or reading past the end, has no defined result. *)
Definition get (row : list Z) (j : Z) : option Z :=
  if j <? 0 then None else nth_error row (Z.to_nat j).

(** [T[i][j]]. *)
Definition get2 (T : list (list Z)) (i : nat) (j : Z) : option Z :=
  row <- nth_error T i ;; get row j.

(** The first loop: a row of zeros for the columns [0 .. total_weight]. *)
Definition zero_row (total_weight : Z) : list Z :=
  map (fun _ => 0) (zrange (total_weight + 1)).

(** One entry of the row of [food], from the row [prev] above it. *)
Definition cell (food : FoodItem) (prev : list Z) (j : Z) : option Z :=
  if weight food <=? j then
    a <- get prev (j - weight food) ;;
    b <- get prev j ;;
    Some (Z.max (foodCalories food + a) b)
  else get prev j.

(** The loop over the columns [j = 0 .. total_weight]. *)
Definition next_row (total_weight : Z) (food : FoodItem) (prev : list Z)
    : option (list Z) :=
  mapM (cell food prev) (zrange (total_weight + 1)).

(** The loop over the items: entered at item [i] with the items
    [foods[i], foods[i+1], ...] still to visit and the rows pushed so far. *)
Fixpoint fill_table (total_weight : Z) (rest : FoodVector) (i : nat)
    (T : list (list Z)) : option (list (list Z)) :=
  match rest with
  | [] => Some T
  | food :: rest' =>
      prev <- nth_error T i ;;
      Temp <- next_row total_weight food prev ;;
      fill_table total_weight rest' (S i) (T ++ [Temp])
  end.

(** The traceback loop [for (i = foods.size(); i > 0; i--)]. *)
Fixpoint traceback (T : list (list Z)) (foods : FoodVector) (i : nat)
    (best : FoodVector) (step : Z) : option FoodVector :=
  match i with
  | O => Some best
  | S i' =>
      here <- get2 T (S i') step ;;
      above <- get2 T i' step ;;
      if here =? above then traceback T foods i' best step
      else
        food <- nth_error foods i' ;;
        traceback T foods i' (best ++ [food])
          (Int32.of_double (step - weight food))
  end.

(** The counters [init] and [j] are [int]s compared with [total_weight]:
    when [total_weight] is at least [Int32.max_int] the increment overflows,
    which is undefined. *)
Definition dynamic_max_calories (foods : FoodVector) (total_weight : Z)
    : option FoodVector :=
  if Int32.max_int <=? total_weight then None
  else
    T <- fill_table total_weight foods 0 [zero_row total_weight] ;;
    traceback T foods (length foods) [] (Int32.of_double total_weight).

(** ** Subsets by inclusion mask *)

(** The items of [rest] (which starts at catalog index [j]) whose bit is set
    in [bit], in catalog order. *)
Fixpoint subset_from (bit : Z) (j : Z) (rest : FoodVector) : FoodVector :=
  match rest with
  | [] => []
  | food :: rest' =>
      if Z.testbit bit j then food :: subset_from bit (j + 1) rest'
      else subset_from bit (j + 1) rest'
  end.

Definition subset_of (bit : Z) (foods : FoodVector) : FoodVector :=
  subset_from bit 0 foods.

(** * Predicates of the proofs *)

Definition nonneg_weights (l : FoodVector) : Prop :=
  Forall (fun f => 0 <= weight f) l.

(** The subset of mask [b] fits the capacity. *)
Definition fits (total_weight : Z) (foods : FoodVector) (b : Z) : Prop :=
  total_weight_of (subset_of b foods) <= total_weight.

(** The total calories of the subset of mask [b]. *)
Definition value (foods : FoodVector) (b : Z) : Z :=
  total_calories_of (subset_of b foods).

(** [covered total_weight foods k st]: the best vector of [st] is what a
    search that has examined exactly the masks [0 .. k-1] must hold. *)
Definition covered (total_weight : Z) (foods : FoodVector) (k : Z)
    (st : search_state) : Prop :=
  bestTotalCalries st = total_calories_of (BestFoodVector st)
  /\ 0 <= bestTotalCalries st
  /\ (forall b, 0 <= b < k -> fits total_weight foods b ->
                value foods b <= bestTotalCalries st)
  /\ (BestFoodVector st = []
      \/ exists b0, 0 <= b0 < k
           /\ BestFoodVector st = subset_of b0 foods
           /\ fits total_weight foods b0
           /\ 0 < bestTotalCalries st
           /\ forall b, 0 <= b < b0 -> fits total_weight foods b ->
                        value foods b < bestTotalCalries st).

(** The candidate fields describe the subset of mask [p]. *)
Definition candidate_is (foods : FoodVector) (p : Z) (st : search_state) : Prop :=
  CandidateFoodVector st = subset_of p foods
  /\ candTotalWeight st = total_weight_of (CandidateFoodVector st)
  /\ candTotalCalories st = total_calories_of (CandidateFoodVector st).

(** The candidate fields after the inner loop has visited the items [done]
    under mask [k]. *)
Definition candidate_from (k : Z) (done : FoodVector) (st : search_state) : Prop :=
  CandidateFoodVector st = subset_from k 0 done
  /\ candTotalWeight st = total_weight_of (CandidateFoodVector st)
  /\ candTotalCalories st = total_calories_of (CandidateFoodVector st).

(** Where the search stands after [j] rounds of the inner loop under mask
    [k]: the subset of [k] itself has been examined as soon as the
    candidate built so far is all of it. *)
Definition phase (total_weight : Z) (foods : FoodVector) (k : Z) (j : nat)
    (st : search_state) : Prop :=
  covered total_weight foods (k + 1) st
  \/ (covered total_weight foods k st
      /\ (j = 0%nat \/ k mod 2 ^ Z.of_nat j <> k)).

(** [best_value l c v]: [v] is the largest total of calories of a subset of
    [l] whose total weight is at most [c]. *)
Definition best_value (l : FoodVector) (c v : Z) : Prop :=
  (forall b, total_weight_of (subset_of b l) <= c ->
             total_calories_of (subset_of b l) <= v)
  /\ (exists b, total_weight_of (subset_of b l) <= c
             /\ total_calories_of (subset_of b l) = v).

(** A row of the table for the items [l]. *)
Definition row_ok (total_weight : Z) (l : FoodVector) (row : list Z) : Prop :=
  length row = Z.to_nat (total_weight + 1)
  /\ forall c v, get row c = Some v -> best_value l c v.

(** The table after the rows of the items [done] have been pushed. *)
Definition table_ok (total_weight : Z) (done : FoodVector) (T : list (list Z))
    : Prop :=
  length T = S (length done)
  /\ (forall k row, nth_error T k = Some row ->
                    length row = Z.to_nat (total_weight + 1))
  /\ nth_error T 0 = Some (zero_row total_weight)
  /\ (forall k f, nth_error done k = Some f ->
        exists prev row,
          nth_error T k = Some prev /\ nth_error T (S k) = Some row
          /\ next_row total_weight f prev = Some row).

(** The state of the traceback on entering round [i]: the items chosen so
    far are those of a mask over the items from [i] on, they weigh
    [total_weight - step], and together with the entry [T[i][step]] they
    are worth [V]. *)
Definition trace_inv (total_weight : Z) (foods : FoodVector) (T : list (list Z))
    (V : Z) (i : nat) (best : FoodVector) (step : Z) : Prop :=
  0 <= step <= total_weight
  /\ total_weight_of best + step = total_weight
  /\ (exists v, get2 T i step = Some v /\ total_calories_of best + v = V)
  /\ (exists b, rev best = subset_from b (Z.of_nat i) (skipn i foods)).

(** [best] lists the catalog items at the indices [idxs]. *)
Definition picks (foods : FoodVector) (idxs : list nat) (best : FoodVector) : Prop :=
  Forall2 (fun i f => nth_error foods i = Some f) idxs best.

Definition decreasing (idxs : list nat) : Prop :=
  StronglySorted (fun i j => (j < i)%nat) idxs.

(** * The loader *)

(** ** The FoodItem constructor *)

(** [None] stands for a failed assertion: the description must not be empty
    and the weight must be positive. *)
Definition new_FoodItem (description : string) (weight_ounces calories : Z)
    : option FoodItem :=
  if String.eqb description EmptyString then None
  else if 0 <? weight_ounces then
    Some {| description := description;
            weight := weight_ounces;
            foodCalories := calories |}
  else None.

(** ** load_food_database *)

(** The loop [for (std::string field; std::getline(ss, field, '^'); )] over
    the characters of a line: a field ends at each ['^'], which is dropped;
    the characters after the last ['^'] are a field only when there are
    some, because [getline] fails when it extracts nothing. *)
Fixpoint split_fields (line : string) : list string :=
  match line with
  | EmptyString => []
  | String c rest =>
      if Ascii.eqb c "^" then EmptyString :: split_fields rest
      else
        match split_fields rest with
        | [] => [String c EmptyString]
        | field :: fields => String c field :: fields
        end
  end.

(** One call [std::getline(ss, field, '^')] on the unread characters [s]
    (not empty): the field read and the characters left unread. *)
Fixpoint getline_delim (s : string) : string * string :=
  match s with
  | EmptyString => (EmptyString, EmptyString)
  | String c rest =>
      if Ascii.eqb c "^" then (EmptyString, rest)
      else (String c (fst (getline_delim rest)), snd (getline_delim rest))
  end.

(** What [load_food_database] does: it returns a vector, returns [nullptr],
    or stops at a failed assertion of the [FoodItem] constructor. *)
Inductive load_result : Type :=
| Loaded (foods : FoodVector)
| LoadFailure
| AssertFailure.

Section Loader.

(** The value that [ss >> output] stores for a field, as the integer it
    holds. *)
Variable stream_extract : string -> Z.

(** The lambda [parse_dbl]: a [stringstream] that was just built is good,
    so the lambda extracts and returns [true]. *)
Definition parse_dbl (field : string) : bool * Z :=
  (true, stream_extract field).

(** The loop over the lines that [std::getline(f, line)] delivers;
    [line_number] is the count of the lines read before this one. *)
Fixpoint load_lines (lines : list string) (line_number : Z) (result : FoodVector)
    : load_result :=
  match lines with
  | [] => Loaded result
  | line :: rest =>
      let line_number := line_number + 1 in
      if line_number =? 1 then load_lines rest line_number result
      else
        let fields := split_fields line in
        if negb (length fields =? 3)%nat then LoadFailure
        else
          let descr_field := nth 0 fields EmptyString in
          let weight_ounces_field := nth 1 fields EmptyString in
          let calories_field := nth 2 fields EmptyString in
          let pw := parse_dbl weight_ounces_field in
          if fst pw then
            let pc := parse_dbl calories_field in
            if fst pc then
              match new_FoodItem descr_field (snd pw) (snd pc) with
              | Some food => load_lines rest line_number (result ++ [food])
              | None => AssertFailure
              end
            else load_lines rest line_number result
          else load_lines rest line_number result
  end.

(** The file is given by the lines it holds, [None] when it cannot be
    opened. *)
Definition load_food_database (file : option (list string)) : load_result :=
  match file with
  | None => LoadFailure
  | Some lines => load_lines lines 0 []
  end.

(** The item a data line stands for, when it has three fields that pass
    the constructor's assertions. *)
Definition line_item (line : string) : option FoodItem :=
  match split_fields line with
  | [descr_field; weight_ounces_field; calories_field] =>
      new_FoodItem descr_field (stream_extract weight_ounces_field)
        (stream_extract calories_field)
  | _ => None
  end.

End Loader.

(** The fields written out with ['^'] between them. *)
Fixpoint join_fields (fields : list string) : string :=
  match fields with
  | [] => EmptyString
  | [field] => field
  | field :: rest => (field ++ String "^" (join_fields rest))%string
  end.

Fixpoint has_delim (s : string) : bool :=
  match s with
  | EmptyString => false
  | String c rest => Ascii.eqb c "^" || has_delim rest
  end.

Definition increasing (idxs : list nat) : Prop :=
  StronglySorted (fun i j => (i < j)%nat) idxs.

Definition positive_weights (l : FoodVector) : Prop :=
  Forall (fun f => 0 < weight f) l.

(** * The solvers in binary64 arithmetic *)

(** The embedding of [sum_food_vector], [exhaustive_max_calories] and
    [dynamic_max_calories] repeated with the [double] arithmetic of the
    code: every [double] is a binary64 float, every addition, subtraction
    and comparison is the binary64 one. *)

Module Binary64.

Import Floats.

Record FoodItem : Type := mkFoodItem
  { description : string;
    weight : float;
    foodCalories : float }.

Definition FoodVector : Type := list FoodItem.

(** [int] to [double]. *)
Definition of_int (j : Z) : float :=
  if j <? 0 then PrimFloat.opp (PrimFloat.of_uint63 (Uint63.of_Z (- j)))
  else PrimFloat.of_uint63 (Uint63.of_Z j).

(** [double] to an integer type: the fraction is dropped; infinities and
    NaN have no integer. *)
Definition truncate (x : float) : option Z :=
  match Prim2SF x with
  | S754_zero _ => Some 0
  | S754_finite s m e =>
      let v := if 0 <=? e then Z.pos m * 2 ^ e else Z.pos m / 2 ^ (- e) in
      Some (if s then - v else v)
  | _ => None
  end.

(** [double] to [int], with the outcome of [Int32.of_double] out of
    range. *)
Definition to_int (x : float) : Z :=
  match truncate x with
  | Some v => Int32.of_double v
  | None => Int32.min_int
  end.

(** [sum_food_vector]: the additions are binary64 additions, in vector
    order. *)
Definition sum_food_vector (foods : FoodVector) : float * float :=
  fold_left
    (fun acc food =>
       (PrimFloat.add (fst acc) (weight food),
        PrimFloat.add (snd acc) (foodCalories food)))
    foods (PrimFloat.zero, PrimFloat.zero).

Record search_state : Type := mkSearch
  { BestFoodVector : FoodVector;
    bestTotalCalries : float;
    CandidateFoodVector : FoodVector;
    candTotalWeight : float;
    candTotalCalories : float }.

Definition initial_search (foods : FoodVector) : search_state :=
  {| BestFoodVector := [];
     bestTotalCalries := PrimFloat.zero;
     CandidateFoodVector := foods;
     candTotalWeight := PrimFloat.zero;
     candTotalCalories := PrimFloat.zero |}.

Definition clear_candidate (st : search_state) : search_state :=
  {| BestFoodVector := BestFoodVector st;
     bestTotalCalries := bestTotalCalries st;
     CandidateFoodVector := [];
     candTotalWeight := PrimFloat.zero;
     candTotalCalories := PrimFloat.zero |}.

Definition add_candidate (food : FoodItem) (st : search_state) : search_state :=
  {| BestFoodVector := BestFoodVector st;
     bestTotalCalries := bestTotalCalries st;
     CandidateFoodVector := CandidateFoodVector st ++ [food];
     candTotalWeight := PrimFloat.add (candTotalWeight st) (weight food);
     candTotalCalories := PrimFloat.add (candTotalCalories st) (foodCalories food) |}.

Definition update_best (total_weight : float) (st : search_state) : search_state :=
  if PrimFloat.leb (candTotalWeight st) total_weight then
    if PrimFloat.ltb (bestTotalCalries st) (candTotalCalories st) then
      {| BestFoodVector := CandidateFoodVector st;
         bestTotalCalries := candTotalCalories st;
         CandidateFoodVector := CandidateFoodVector st;
         candTotalWeight := candTotalWeight st;
         candTotalCalories := candTotalCalories st |}
    else st
  else st.

Fixpoint exhaustive_inner (total_weight : float) (bit j : Z) (rest : FoodVector)
    (st : search_state) : search_state :=
  match rest with
  | [] => st
  | food :: rest' =>
      let st1 :=
        if Z.land (Z.shiftr bit j) 1 =? 1 then add_candidate food st else st in
      exhaustive_inner total_weight bit (j + 1) rest' (update_best total_weight st1)
  end.

Definition exhaustive_iteration (total_weight : float) (foods : FoodVector)
    (st : search_state) (bit : Z) : search_state :=
  exhaustive_inner total_weight bit 0 foods (clear_candidate st).

Definition bitSize (foods : FoodVector) : Z :=
  Int32.of_double (2 ^ Z.of_nat (length foods)).

Definition exhaustive_max_calories (foods : FoodVector) (total_weight : float)
    : option FoodVector :=
  let n := Int32.wrap (Z.of_nat (length foods)) in
  if n <? 64 then
    Some (BestFoodVector
            (fold_left (exhaustive_iteration total_weight foods)
               (zrange (bitSize foods)) (initial_search foods)))
  else None.

Definition get (row : list float) (j : Z) : option float :=
  if j <? 0 then None else nth_error row (Z.to_nat j).

Definition get2 (T : list (list float)) (i : nat) (j : Z) : option float :=
  row <- nth_error T i ;; get row j.

(** The values of the counter in [for (int j = 0; j <= total_weight; j++)]:
    none when [0 <= total_weight] is false, else [0 .. trunc total_weight];
    the counter overflows when that reaches [Int32.max_int]. *)
Definition columns (total_weight : float) : option (list Z) :=
  if PrimFloat.leb PrimFloat.zero total_weight then
    k <- truncate total_weight ;;
    if Int32.max_int <=? k then None else Some (zrange (k + 1))
  else Some [].

(** One entry of a row; [std::max(x, b)] is [b] when [x < b], else [x]; the
    index [j - weight] is a [double] converted to [size_t]. *)
Definition cell (food : FoodItem) (prev : list float) (j : Z) : option float :=
  if PrimFloat.leb (weight food) (of_int j) then
    k <- truncate (PrimFloat.sub (of_int j) (weight food)) ;;
    a <- get prev k ;;
    b <- get prev j ;;
    let x := PrimFloat.add (foodCalories food) a in
    Some (if PrimFloat.ltb x b then b else x)
  else get prev j.

Fixpoint fill_table (cols : list Z) (rest : FoodVector) (i : nat)
    (T : list (list float)) : option (list (list float)) :=
  match rest with
  | [] => Some T
  | food :: rest' =>
      prev <- nth_error T i ;;
      Temp <- mapM (cell food prev) cols ;;
      fill_table cols rest' (S i) (T ++ [Temp])
  end.

Fixpoint traceback (T : list (list float)) (foods : FoodVector) (i : nat)
    (best : FoodVector) (step : Z) : option FoodVector :=
  match i with
  | O => Some best
  | S i' =>
      here <- get2 T (S i') step ;;
      above <- get2 T i' step ;;
      if PrimFloat.eqb here above then traceback T foods i' best step
      else
        food <- nth_error foods i' ;;
        traceback T foods i' (best ++ [food])
          (to_int (PrimFloat.sub (of_int step) (weight food)))
  end.

(** The table [T] after the two filling loops. *)
Definition table (foods : FoodVector) (total_weight : float)
    : option (list (list float)) :=
  cols <- columns total_weight ;;
  fill_table cols foods 0 [map (fun _ => PrimFloat.zero) cols].

Definition dynamic_max_calories (foods : FoodVector) (total_weight : float)
    : option FoodVector :=
  T <- table foods total_weight ;;
  traceback T foods (length foods) [] (to_int total_weight).

(** Sample data: calories 0.1, 0.2, 0.3 (the nearest binary64 values), and
    calories around 2^53. *)
Definition item64 (w c : float) : FoodItem :=
  {| description := "food"; weight := w; foodCalories := c |}.

Definition tenths : FoodVector :=
  [item64 1 0x1.999999999999ap-4; item64 1 0x1.999999999999ap-3; item64 1 0x1.3333333333333p-2].
Definition half_item : FoodItem := item64 0x1.8p0 10.

Definition halves : FoodVector := [half_item; half_item].

Definition around_2_53 : FoodVector :=
  [item64 2 1; item64 2 1; item64 2 9007199254740992; item64 5 9007199254740994].

End Binary64.

(** An item of the integer embedding as the item of doubles it stands
    for. *)
Definition to_binary64 (f : FoodItem) : Binary64.FoodItem :=
  {| Binary64.description := description f;
     Binary64.weight := Binary64.of_int (weight f);
     Binary64.foodCalories := Binary64.of_int (foodCalories f) |}.

(** * Exact sums *)

Definition calorie_magnitude (foods : FoodVector) : Z :=
  fold_right (fun f acc => Z.abs (foodCalories f) + acc) 0 foods.

Definition weight_magnitude (foods : FoodVector) : Z :=
  fold_right (fun f acc => Z.abs (weight f) + acc) 0 foods.

(** The calories are integers whose magnitudes add up to at most 2^53:
    every sum of calories that the code forms is then an integer of
    magnitude at most 2^53, and the binary64 additions are exact. *)
Definition exact_calories (foods : FoodVector) : Prop :=
  calorie_magnitude foods <= 2 ^ 53.


(** * Sample data *)

Definition item (w c : Z) : FoodItem :=
  {| description := "food"%string; weight := w; foodCalories := c |}.

Definition catalog4 : FoodVector := [item 2 3; item 3 4; item 4 5; item 5 6].

Definition values5 : FoodVector := [item 1 5; item 1 50; item 1 10; item 1 200; item 1 15].

Definition catalog31 : FoodVector := repeat (item 1 1) 31.

(** A reading of decimal digits, to run the loader on a sample file. *)
Fixpoint digits_value (s : string) (acc : Z) : Z :=
  match s with
  | EmptyString => acc
  | String c rest =>
      let d := Z.of_N (N_of_ascii c) - 48 in
      if (0 <=? d) && (d <=? 9) then digits_value rest (10 * acc + d) else acc
  end.

Definition sample_extract (field : string) : Z := digits_value field 0.

Definition sample_file : list string :=
  ["description^weight^calories"%string; "apple^3^95"%string; "bread^2^80"%string].

(** * Runs on the sample data *)

Example dp_catalog4 : dynamic_max_calories catalog4 5 = Some [item 3 4; item 2 3].
Proof. vm_compute. reflexivity. Qed.

Example ex_catalog4 : exhaustive_max_calories catalog4 5 = Some [item 2 3; item 3 4].
Proof. vm_compute. reflexivity. Qed.

Example filter_values5 : filter_food_vector values5 10 100 2 = Some [item 1 50; item 1 10].
Proof. vm_compute. reflexivity. Qed.

Example ex_catalog31 : exhaustive_max_calories catalog31 1 = Some [].
Proof. vm_compute. reflexivity. Qed.

(** The two embeddings agree on the catalog of the specification's example. *)
Example dp_catalog4_binary64 :
  Binary64.dynamic_max_calories (map to_binary64 catalog4) (Binary64.of_int 5)
  = Some (map to_binary64 [item 3 4; item 2 3]).
Proof. vm_compute. reflexivity. Qed.

Example ex_catalog4_binary64 :
  Binary64.exhaustive_max_calories (map to_binary64 catalog4) (Binary64.of_int 5)
  = Some (map to_binary64 [item 2 3; item 3 4]).
Proof. vm_compute. reflexivity. Qed.

(** * Properties *)

#[local] Arguments total_weight_of : simpl never.
#[local] Arguments total_calories_of : simpl never.

(** ** Totals *)

Lemma sum_food_vector_acc (foods : FoodVector) (w c : Z) :
  fold_left
    (fun acc food => (fst acc + weight food, snd acc + foodCalories food))
    foods (w, c)
  = (w + total_weight_of foods, c + total_calories_of foods).
Proof.
  unfold total_weight_of, total_calories_of, sum_food_vector.
  revert w c.
  induction foods as [|f foods IH]; intros w c; simpl.
  - f_equal; lia.
  - rewrite IH, (IH (weight f) (foodCalories f)). simpl. f_equal; lia.
Qed.

Lemma total_weight_nil : total_weight_of [] = 0.
Proof. reflexivity. Qed.

Lemma total_calories_nil : total_calories_of [] = 0.
Proof. reflexivity. Qed.

Lemma total_weight_cons (f : FoodItem) (l : FoodVector) :
  total_weight_of (f :: l) = weight f + total_weight_of l.
Proof.
  unfold total_weight_of at 1, sum_food_vector. simpl.
  rewrite sum_food_vector_acc. reflexivity.
Qed.

Lemma total_calories_cons (f : FoodItem) (l : FoodVector) :
  total_calories_of (f :: l) = foodCalories f + total_calories_of l.
Proof.
  unfold total_calories_of at 1, sum_food_vector. simpl.
  rewrite sum_food_vector_acc. reflexivity.
Qed.

Lemma total_weight_app (l l' : FoodVector) :
  total_weight_of (l ++ l') = total_weight_of l + total_weight_of l'.
Proof.
  induction l as [|f l IH]; cbn [app].
  - rewrite total_weight_nil. lia.
  - rewrite !total_weight_cons, IH. lia.
Qed.

Lemma total_calories_app (l l' : FoodVector) :
  total_calories_of (l ++ l') = total_calories_of l + total_calories_of l'.
Proof.
  induction l as [|f l IH]; cbn [app].
  - rewrite total_calories_nil. lia.
  - rewrite !total_calories_cons, IH. lia.
Qed.

Lemma total_weight_rev (l : FoodVector) :
  total_weight_of (rev l) = total_weight_of l.
Proof.
  induction l as [|f l IH]; simpl; [reflexivity|].
  rewrite total_weight_app, !total_weight_cons, total_weight_nil, IH. lia.
Qed.

Lemma total_calories_rev (l : FoodVector) :
  total_calories_of (rev l) = total_calories_of l.
Proof.
  induction l as [|f l IH]; simpl; [reflexivity|].
  rewrite total_calories_app, !total_calories_cons, total_calories_nil, IH. lia.
Qed.



(** ** Loop counters and partial maps *)

Lemma zrange_length (k : Z) : length (zrange k) = Z.to_nat k.
Proof. unfold zrange. now rewrite length_map, length_seq. Qed.

Lemma zrange_nth (k : Z) (i : nat) :
  (i < Z.to_nat k)%nat -> nth_error (zrange k) i = Some (Z.of_nat i).
Proof.
  intros Hi. unfold zrange.
  rewrite nth_error_map, nth_error_seq.
  destruct (Nat.ltb_spec i (Z.to_nat k)); [reflexivity | lia].
Qed.

Lemma zrange_In (k a : Z) : In a (zrange k) <-> 0 <= a < k.
Proof.
  unfold zrange. rewrite in_map_iff. split.
  - intros (i & <- & Hi). apply in_seq in Hi. lia.
  - intros Ha. exists (Z.to_nat a). split; [lia|]. apply in_seq. lia.
Qed.

Lemma zrange_succ (m : nat) :
  zrange (Z.of_nat (S m)) = zrange (Z.of_nat m) ++ [Z.of_nat m].
Proof.
  unfold zrange. rewrite !Nat2Z.id, seq_S, map_app. reflexivity.
Qed.

Lemma mapM_length {A B : Type} (g : A -> option B) (l : list A) (r : list B) :
  mapM g l = Some r -> length r = length l.
Proof.
  revert r. induction l as [|a l IH]; intros r H; simpl in H.
  - now inversion H.
  - destruct (g a) as [b|]; simpl in H; [|discriminate].
    destruct (mapM g l) as [bs|]; simpl in H; [|discriminate].
    inversion H; subst. simpl. now rewrite (IH bs).
Qed.

Lemma mapM_nth {A B : Type} (g : A -> option B) (l : list A) (r : list B) :
  mapM g l = Some r ->
  forall k a, nth_error l k = Some a ->
  exists b, g a = Some b /\ nth_error r k = Some b.
Proof.
  revert r. induction l as [|a0 l IH]; intros r H k a Hk; simpl in H.
  - destruct k; discriminate.
  - destruct (g a0) as [b0|] eqn:E0; simpl in H; [|discriminate].
    destruct (mapM g l) as [bs|]; simpl in H; [|discriminate].
    inversion H; subst.
    destruct k as [|k]; simpl in *.
    + inversion Hk; subst. eauto.
    + eapply IH; eauto.
Qed.

Lemma mapM_total {A B : Type} (g : A -> option B) (l : list A) :
  (forall a, In a l -> exists b, g a = Some b) ->
  exists r, mapM g l = Some r.
Proof.
  induction l as [|a l IH]; intros H; simpl.
  - eauto.
  - destruct (H a) as [b Hb]; [now left|].
    destruct IH as [bs Hbs]; [intros; apply H; now right|].
    rewrite Hb, Hbs. simpl. eauto.
Qed.

Lemma get_Some (row : list Z) (j v : Z) :
  get row j = Some v <-> 0 <= j /\ nth_error row (Z.to_nat j) = Some v.
Proof.
  unfold get. destruct (Z.ltb_spec j 0); split; intros H'.
  - discriminate.
  - lia.
  - split; [lia | exact H'].
  - apply H'.
Qed.

Lemma get_range (row : list Z) (j v : Z) :
  get row j = Some v -> 0 <= j < Z.of_nat (length row).
Proof.
  intros H. apply get_Some in H as [H0 H].
  assert (Z.to_nat j < length row)%nat by (apply nth_error_Some; congruence).
  lia.
Qed.

Lemma get_total (row : list Z) (j : Z) :
  0 <= j < Z.of_nat (length row) -> exists v, get row j = Some v.
Proof.
  intros H. destruct (nth_error row (Z.to_nat j)) as [v|] eqn:E.
  - exists v. apply get_Some. split; [lia | exact E].
  - apply nth_error_None in E. lia.
Qed.

(** ** filter_food_vector *)

Lemma filter_loop_spec (mn mx k : Z) (source acc : FoodVector) :
  Z.of_nat (length acc) <= k ->
  filter_loop mn mx k source acc
  = firstn (Z.to_nat k) (acc ++ filter (in_calorie_range mn mx) source).
Proof.
  revert acc. induction source as [|f rest IH]; intros acc Hacc; simpl.
  - rewrite app_nil_r, firstn_all2; [reflexivity | lia].
  - destruct (in_calorie_range mn mx f).
    + destruct (Z.ltb_spec (Z.of_nat (length acc)) k).
      * rewrite IH by (rewrite length_app; simpl; lia).
        now rewrite <- app_assoc.
      * rewrite firstn_app.
        replace (Z.to_nat k - length acc)%nat with 0%nat by lia.
        rewrite firstn_all2 by lia. simpl. now rewrite app_nil_r.
    + now apply IH.
Qed.

(** ** Inclusion masks *)

Lemma subset_from_app (bit j : Z) (l l' : FoodVector) :
  subset_from bit j (l ++ l')
  = subset_from bit j l ++ subset_from bit (j + Z.of_nat (length l)) l'.
Proof.
  revert j. induction l as [|f l IH]; intros j; simpl.
  - now rewrite Z.add_0_r.
  - rewrite IH.
    replace (j + 1 + Z.of_nat (length l)) with (j + Z.pos (Pos.of_succ_nat (length l))) by lia.
    now destruct (Z.testbit bit j).
Qed.

(** Only the bits at the indices of the items matter. *)
Lemma subset_from_ext (b b' j : Z) (l : FoodVector) :
  (forall k, j <= k < j + Z.of_nat (length l) -> Z.testbit b k = Z.testbit b' k) ->
  subset_from b j l = subset_from b' j l.
Proof.
  revert j. induction l as [|f l IH]; intros j H; simpl; [reflexivity|].
  rewrite (H j) by (simpl; lia).
  rewrite (IH (j + 1)) by (intros k Hk; apply H; simpl; lia).
  reflexivity.
Qed.

Lemma subset_from_clear (b j : Z) (l : FoodVector) :
  (forall k, j <= k < j + Z.of_nat (length l) -> Z.testbit b k = false) ->
  subset_from b j l = [].
Proof.
  revert j. induction l as [|f l IH]; intros j H; simpl; [reflexivity|].
  rewrite (H j) by (simpl; lia).
  apply IH. intros k Hk. apply H. simpl. lia.
Qed.

(** Every mask selects the same items as its reduction below [2^n]. *)
Lemma subset_of_mod (b : Z) (foods : FoodVector) :
  subset_of (b mod 2 ^ Z.of_nat (length foods)) foods = subset_of b foods.
Proof.
  apply subset_from_ext. intros k Hk.
  apply Z.mod_pow2_bits_low. lia.
Qed.

Lemma mask_mod_range (b : Z) (n : nat) :
  0 <= b mod 2 ^ Z.of_nat n < 2 ^ Z.of_nat n.
Proof. apply Z.mod_pos_bound. apply Z.pow_pos_nonneg; lia. Qed.

(** The candidate built from the first [j] items under mask [bit] is the
    subset of the mask [bit mod 2^j]. *)
Lemma subset_of_prefix (bit : Z) (done rest : FoodVector) :
  subset_of (bit mod 2 ^ Z.of_nat (length done)) (done ++ rest)
  = subset_from bit 0 done.
Proof.
  unfold subset_of. rewrite subset_from_app.
  rewrite (subset_from_clear _ _ rest).
  - rewrite app_nil_r. apply subset_from_ext. intros k Hk.
    apply Z.mod_pow2_bits_low. lia.
  - intros k Hk. apply Z.mod_pow2_bits_high. lia.
Qed.

Lemma bit_test (bit j : Z) :
  0 <= j -> (Z.land (Z.shiftr bit j) 1 =? 1) = Z.testbit bit j.
Proof.
  intros Hj.
  change 1 with (Z.ones 1) at 1.
  rewrite Z.land_ones by lia. change (2 ^ 1) with 2.
  rewrite <- Z.bit0_mod, Z.shiftr_spec by lia. simpl.
  now destruct (Z.testbit bit j).
Qed.

Lemma subset_weight_nonneg (b j : Z) (l : FoodVector) :
  Forall (fun f => 0 <= weight f) l ->
  0 <= total_weight_of (subset_from b j l).
Proof.
  intros H. revert j. induction H as [|f l Hf Hl IH]; intros j; simpl.
  - rewrite total_weight_nil. lia.
  - destruct (Z.testbit b j); [rewrite total_weight_cons|]; specialize (IH (j + 1)); lia.
Qed.

(** ** exhaustive_max_calories: the search invariant *)

Section Exhaustive.

Variable total_weight : Z.
Variable foods : FoodVector.

Lemma update_best_candidate (st : search_state) :
  CandidateFoodVector (update_best total_weight st) = CandidateFoodVector st
  /\ candTotalWeight (update_best total_weight st) = candTotalWeight st
  /\ candTotalCalories (update_best total_weight st) = candTotalCalories st.
Proof.
  unfold update_best.
  destruct (candTotalWeight st <=? total_weight); [|auto].
  destruct (bestTotalCalries st <? candTotalCalories st); auto.
Qed.

(** A subset that was examined before does not replace the best. *)
Lemma update_best_seen (k p : Z) (st : search_state) :
  covered total_weight foods k st -> candidate_is foods p st -> 0 <= p < k ->
  update_best total_weight st = st.
Proof.
  intros (Hc & H0 & Hmax & Hbest) (Hp & Hw & Hv) Hpk.
  unfold update_best.
  destruct (Z.leb_spec (candTotalWeight st) total_weight) as [Hfit|]; [|reflexivity].
  destruct (Z.ltb_spec (bestTotalCalries st) (candTotalCalories st)) as [Hgt|]; [|reflexivity].
  exfalso.
  assert (value foods p <= bestTotalCalries st).
  { apply Hmax; [exact Hpk|]. unfold fits. rewrite <- Hp, <- Hw. exact Hfit. }
  unfold value in *. rewrite <- Hp, <- Hv in *. lia.
Qed.

(** Examining the subset of mask [k] after the masks below [k]. *)
Lemma update_best_new (k : Z) (st : search_state) :
  0 <= k -> covered total_weight foods k st -> candidate_is foods k st ->
  covered total_weight foods (k + 1) (update_best total_weight st).
Proof.
  intros Hk (Hc & H0 & Hmax & Hbest) (Hp & Hw & Hv).
  assert (Hval : value foods k = candTotalCalories st)
    by (unfold value; now rewrite <- Hp, <- Hv).
  assert (Hfits : fits total_weight foods k <-> candTotalWeight st <= total_weight)
    by (unfold fits; now rewrite <- Hp, <- Hw).
  unfold update_best.
  destruct (Z.leb_spec (candTotalWeight st) total_weight) as [Hfit|Hfit].
  - destruct (Z.ltb_spec (bestTotalCalries st) (candTotalCalories st)) as [Hgt|Hle].
    + unfold covered; simpl. repeat split; try lia; try assumption.
      * intros b Hb Hbf. destruct (Z.eq_dec b k) as [->|]; [lia|].
        specialize (Hmax b ltac:(lia) Hbf). lia.
      * right. exists k. repeat split; try lia; try tauto.
        intros b Hb Hbf. specialize (Hmax b ltac:(lia) Hbf). lia.
    + unfold covered. repeat split; try lia; try assumption.
      * intros b Hb Hbf. destruct (Z.eq_dec b k) as [->|]; [lia|].
        specialize (Hmax b ltac:(lia) Hbf). lia.
      * destruct Hbest as [Hnil|(b0 & Hb0 & Hrest)]; [now left|].
        right. exists b0. split; [lia | exact Hrest].
  - unfold covered. repeat split; try lia; try assumption.
    + intros b Hb Hbf. destruct (Z.eq_dec b k) as [->|]; [apply Hfits in Hbf; lia|].
      specialize (Hmax b ltac:(lia) Hbf). lia.
    + destruct Hbest as [Hnil|(b0 & Hb0 & Hrest)]; [now left|].
      right. exists b0. split; [lia | exact Hrest].
Qed.

Lemma covered_add_candidate (k : Z) (f : FoodItem) (st : search_state) :
  covered total_weight foods k st -> covered total_weight foods k (add_candidate f st).
Proof. intros H. exact H. Qed.

Lemma candidate_from_is (k : Z) (done rest : FoodVector) (st : search_state) :
  done ++ rest = foods -> candidate_from k done st ->
  candidate_is foods (k mod 2 ^ Z.of_nat (length done)) st.
Proof.
  intros Hf (Hc & Hw & Hv). repeat split; try assumption.
  rewrite <- Hf. now rewrite subset_of_prefix.
Qed.

Lemma exhaustive_inner_phase (k : Z) :
  0 <= k ->
  forall rest done st,
    done ++ rest = foods ->
    candidate_from k done st ->
    phase total_weight foods k (length done) st ->
    phase total_weight foods k (length foods)
      (exhaustive_inner total_weight k (Z.of_nat (length done)) rest st).
Proof.
  intros Hk rest. induction rest as [|f rest IH]; intros done st Hfoods Hcand Hphase.
  - simpl. rewrite app_nil_r in Hfoods. now subst done.
  - simpl.
    set (st1 := if Z.land (Z.shiftr k (Z.of_nat (length done))) 1 =? 1
                then add_candidate f st else st).
    assert (Hfoods' : (done ++ [f]) ++ rest = foods)
      by (now rewrite <- app_assoc).
    assert (Hlen : Z.of_nat (length (done ++ [f])) = Z.of_nat (length done) + 1)
      by (rewrite length_app; simpl; lia).
    assert (Hcand1 : candidate_from k (done ++ [f]) st1).
    { destruct Hcand as (Hc & Hw & Hv). subst st1.
      rewrite bit_test by lia. unfold candidate_from.
      rewrite subset_from_app. simpl.
      destruct (Z.testbit k (Z.of_nat (length done))); simpl.
      - rewrite Hw, Hv, Hc, total_weight_app, total_calories_app,
          total_weight_cons, total_calories_cons,
          total_weight_nil, total_calories_nil.
        repeat split; lia.
      - rewrite app_nil_r. auto. }
    assert (Hbest1 : forall K, covered total_weight foods K st -> covered total_weight foods K st1).
    { intros K HK. subst st1.
      destruct (Z.land (Z.shiftr k (Z.of_nat (length done))) 1 =? 1);
        [now apply covered_add_candidate | exact HK]. }
    pose proof (candidate_from_is _ _ _ _ Hfoods' Hcand1) as Hp.
    assert (Hrange : 0 <= k mod 2 ^ Z.of_nat (length (done ++ [f])) <= k).
    { split; [apply mask_mod_range|].
      apply Z.mod_le; [lia|]. apply Z.pow_pos_nonneg; lia. }
    assert (Hcand2 : candidate_from k (done ++ [f]) (update_best total_weight st1)).
    { destruct (update_best_candidate st1) as (E1 & E2 & E3).
      unfold candidate_from. rewrite E1, E2, E3. exact Hcand1. }
    rewrite <- Hlen. apply IH; [exact Hfoods' | exact Hcand2 |].
    destruct Hphase as [Hnext | (Hcov & _)].
    + left. rewrite (update_best_seen (k + 1) _ st1 (Hbest1 _ Hnext) Hp) by lia.
      now apply Hbest1.
    + destruct (Z.eq_dec (k mod 2 ^ Z.of_nat (length (done ++ [f]))) k) as [E|NE].
      * left. rewrite E in Hp. apply update_best_new; auto.
      * right. rewrite (update_best_seen k _ st1 (Hbest1 _ Hcov) Hp) by lia.
        split; [now apply Hbest1 | now right].
Qed.

Lemma covered_initial : covered total_weight foods 0 (initial_search foods).
Proof.
  unfold covered; simpl. rewrite total_calories_nil.
  repeat split; try lia. now left.
Qed.

Lemma exhaustive_iteration_covered (k : Z) (st : search_state) :
  0 <= k < 2 ^ Z.of_nat (length foods) ->
  covered total_weight foods k st ->
  covered total_weight foods (k + 1) (exhaustive_iteration total_weight foods st k).
Proof.
  intros Hk Hcov. unfold exhaustive_iteration.
  assert (Hphase : phase total_weight foods k (length foods)
            (exhaustive_inner total_weight k (Z.of_nat (@length FoodItem []))
               foods (clear_candidate st))).
  { apply exhaustive_inner_phase; [lia | reflexivity | |].
    - unfold candidate_from; simpl.
      rewrite total_weight_nil, total_calories_nil. auto.
    - right. split; [exact Hcov | now left]. }
  simpl in Hphase.
  destruct Hphase as [H | (H & [Hn | Hmod])]; [exact H | |].
  - apply length_zero_iff_nil in Hn.
    destruct H as (Hc & H0 & Hmax & Hbest).
    unfold covered. repeat split; try assumption.
    + intros b _ _. unfold value. rewrite Hn in *. simpl in *.
      change (subset_of b []) with (@nil FoodItem).
      rewrite total_calories_nil. lia.
    + destruct Hbest as [Hnil|(b0 & Hb0 & Hrest)]; [now left|].
      right. exists b0. split; [lia | exact Hrest].
  - rewrite Z.mod_small in Hmod by lia. congruence.
Qed.

Lemma exhaustive_fold_covered (m : nat) :
  Z.of_nat m <= 2 ^ Z.of_nat (length foods) ->
  covered total_weight foods (Z.of_nat m)
    (fold_left (exhaustive_iteration total_weight foods)
       (zrange (Z.of_nat m)) (initial_search foods)).
Proof.
  induction m as [|m IH]; intros Hm.
  - exact covered_initial.
  - rewrite zrange_succ, fold_left_app. simpl fold_left.
    rewrite Nat2Z.inj_succ. unfold Z.succ.
    apply exhaustive_iteration_covered; [lia|]. apply IH. lia.
Qed.

End Exhaustive.

(** The conversions into [int] at the head of [exhaustive_max_calories]. *)

Lemma wrap_small (z : Z) : 0 <= z < 2 ^ 31 -> Int32.wrap z = z.
Proof.
  intros H. unfold Int32.wrap. rewrite Z.mod_small; lia.
Qed.

Lemma bitSize_small (foods : FoodVector) :
  (length foods <= 30)%nat -> bitSize foods = 2 ^ Z.of_nat (length foods).
Proof.
  intros H. unfold bitSize, Int32.of_double, Int32.in_range, Int32.min_int, Int32.max_int.
  assert (0 < 2 ^ Z.of_nat (length foods)) by (apply Z.pow_pos_nonneg; lia).
  assert (2 ^ Z.of_nat (length foods) <= 2 ^ 30) by (apply Z.pow_le_mono_r; lia).
  destruct (Z.leb_spec (- 2 ^ 31) (2 ^ Z.of_nat (length foods))); [|lia].
  destruct (Z.leb_spec (2 ^ Z.of_nat (length foods)) (2 ^ 31 - 1)); [reflexivity|lia].
Qed.

Lemma bitSize_large (foods : FoodVector) :
  (31 <= length foods)%nat -> bitSize foods = Int32.min_int.
Proof.
  intros H. unfold bitSize, Int32.of_double, Int32.in_range, Int32.max_int.
  assert (2 ^ 31 <= 2 ^ Z.of_nat (length foods)) by (apply Z.pow_le_mono_r; lia).
  destruct (Z.leb_spec (2 ^ Z.of_nat (length foods)) (2 ^ 31 - 1)); [lia|].
  now rewrite andb_false_r.
Qed.

Lemma exhaustive_accepts (foods : FoodVector) (total_weight : Z) :
  (length foods < 64)%nat ->
  exhaustive_max_calories foods total_weight
  = Some (BestFoodVector (exhaustive_search foods total_weight)).
Proof.
  intros H. unfold exhaustive_max_calories.
  rewrite wrap_small by lia.
  destruct (Z.ltb_spec (Z.of_nat (length foods)) 64); [reflexivity | lia].
Qed.

Lemma exhaustive_rejects (foods : FoodVector) (total_weight : Z) :
  (64 <= length foods)%nat -> Z.of_nat (length foods) < 2 ^ 31 ->
  exhaustive_max_calories foods total_weight = None.
Proof.
  intros H H'. unfold exhaustive_max_calories.
  rewrite wrap_small by lia.
  destruct (Z.ltb_spec (Z.of_nat (length foods)) 64); [lia | reflexivity].
Qed.

(** Up to 30 items the loop visits every mask below [2^n]. *)
Lemma exhaustive_search_covered (foods : FoodVector) (total_weight : Z) :
  (length foods <= 30)%nat ->
  covered total_weight foods (2 ^ Z.of_nat (length foods))
    (exhaustive_search foods total_weight).
Proof.
  intros H. unfold exhaustive_search. rewrite bitSize_small by exact H.
  assert (Hpos : 0 < 2 ^ Z.of_nat (length foods)) by (apply Z.pow_pos_nonneg; lia).
  rewrite <- (Z2Nat.id (2 ^ Z.of_nat (length foods))) by lia.
  apply exhaustive_fold_covered. lia.
Qed.

(** From 31 items on, [bitSize] is not positive and no mask is visited. *)
Lemma exhaustive_search_large (foods : FoodVector) (total_weight : Z) :
  (31 <= length foods)%nat ->
  exhaustive_search foods total_weight = initial_search foods.
Proof.
  intros H. unfold exhaustive_search. now rewrite bitSize_large.
Qed.

(** ** dynamic_max_calories: the table *)

Lemma firstn_snoc {A : Type} (l : list A) (k : nat) (x : A) :
  nth_error l k = Some x -> firstn (S k) l = firstn k l ++ [x].
Proof.
  revert k. induction l as [|a l IH]; intros [|k] H; simpl in *; try discriminate.
  - now inversion H.
  - f_equal. now apply IH.
Qed.

Lemma skipn_cons {A : Type} (l : list A) (k : nat) (x : A) :
  nth_error l k = Some x -> skipn k l = x :: skipn (S k) l.
Proof.
  revert k. induction l as [|a l IH]; intros [|k] H; simpl in *; try discriminate.
  - now inversion H.
  - now apply IH.
Qed.

Lemma subset_of_snoc (b : Z) (l : FoodVector) (f : FoodItem) :
  subset_of b (l ++ [f])
  = subset_of b l ++ (if Z.testbit b (Z.of_nat (length l)) then [f] else []).
Proof.
  unfold subset_of. rewrite subset_from_app. simpl.
  now destruct (Z.testbit b (Z.of_nat (length l))).
Qed.

Lemma subset_of_setbit (b : Z) (l : FoodVector) :
  subset_of (Z.setbit b (Z.of_nat (length l))) l = subset_of b l.
Proof.
  apply subset_from_ext. intros k Hk. apply Z.setbit_neq; lia.
Qed.

Lemma subset_of_clearbit (b : Z) (l : FoodVector) :
  subset_of (Z.clearbit b (Z.of_nat (length l))) l = subset_of b l.
Proof.
  apply subset_from_ext. intros k Hk. apply Z.clearbit_neq; lia.
Qed.

Lemma best_value_nil (c : Z) : 0 <= c -> best_value [] c 0.
Proof.
  intros Hc. split.
  - intros b _. change (subset_of b []) with (@nil FoodItem).
    rewrite total_calories_nil. lia.
  - exists 0. change (subset_of 0 []) with (@nil FoodItem).
    rewrite total_weight_nil, total_calories_nil. lia.
Qed.

Lemma best_value_take (l : FoodVector) (f : FoodItem) (c a b : Z) :
  best_value l (c - weight f) a -> best_value l c b ->
  best_value (l ++ [f]) c (Z.max (foodCalories f + a) b).
Proof.
  intros (Ha & ma & Hma & Ea) (Hb & mb & Hmb & Eb). split.
  - intros m Hm. rewrite subset_of_snoc in *.
    rewrite total_weight_app in Hm. rewrite total_calories_app.
    destruct (Z.testbit m (Z.of_nat (length l))).
    + rewrite total_weight_cons, total_weight_nil in Hm.
      rewrite total_calories_cons, total_calories_nil.
      specialize (Ha m ltac:(lia)). lia.
    + rewrite total_weight_nil in Hm. rewrite total_calories_nil.
      specialize (Hb m ltac:(lia)). lia.
  - destruct (Z_le_gt_dec b (foodCalories f + a)) as [Hle|Hgt].
    + exists (Z.setbit ma (Z.of_nat (length l))).
      rewrite subset_of_snoc, subset_of_setbit, Z.setbit_eq by lia.
      rewrite total_weight_app, total_calories_app, total_weight_cons,
        total_calories_cons, total_weight_nil, total_calories_nil.
      lia.
    + exists (Z.clearbit mb (Z.of_nat (length l))).
      rewrite subset_of_snoc, subset_of_clearbit, Z.clearbit_eq.
      rewrite total_weight_app, total_calories_app,
        total_weight_nil, total_calories_nil.
      lia.
Qed.

Lemma best_value_skip (l : FoodVector) (f : FoodItem) (c b : Z) :
  nonneg_weights l -> c < weight f ->
  best_value l c b -> best_value (l ++ [f]) c b.
Proof.
  intros Hl Hc (Hb & mb & Hmb & Eb). split.
  - intros m Hm. rewrite subset_of_snoc in *.
    rewrite total_weight_app in Hm. rewrite total_calories_app.
    destruct (Z.testbit m (Z.of_nat (length l))).
    + rewrite total_weight_cons, total_weight_nil in Hm.
      pose proof (subset_weight_nonneg m 0 l Hl). unfold subset_of in Hm. lia.
    + rewrite total_weight_nil in Hm. rewrite total_calories_nil.
      specialize (Hb m ltac:(lia)). lia.
  - exists (Z.clearbit mb (Z.of_nat (length l))).
    rewrite subset_of_snoc, subset_of_clearbit, Z.clearbit_eq.
    rewrite total_weight_app, total_calories_app,
      total_weight_nil, total_calories_nil.
    lia.
Qed.

Section Table.

Variable total_weight : Z.
Hypothesis capacity_nonneg : 0 <= total_weight.

Lemma zero_row_get (c v : Z) : get (zero_row total_weight) c = Some v -> v = 0.
Proof.
  intros H. apply get_Some in H as [_ H]. unfold zero_row in H.
  rewrite nth_error_map in H.
  destruct (nth_error (zrange (total_weight + 1)) (Z.to_nat c)); simpl in H; congruence.
Qed.

Lemma zero_row_length : length (zero_row total_weight) = Z.to_nat (total_weight + 1).
Proof. unfold zero_row. now rewrite length_map, zrange_length. Qed.

Lemma zero_row_ok : row_ok total_weight [] (zero_row total_weight).
Proof.
  split; [exact zero_row_length|].
  intros c v H. pose proof (get_range _ _ _ H).
  apply zero_row_get in H. subst v. apply best_value_nil. lia.
Qed.

Lemma next_row_length (f : FoodItem) (prev row : list Z) :
  next_row total_weight f prev = Some row ->
  length row = Z.to_nat (total_weight + 1).
Proof.
  intros H. apply mapM_length in H. now rewrite zrange_length in H.
Qed.

Lemma next_row_cell (f : FoodItem) (prev row : list Z) (c : Z) :
  next_row total_weight f prev = Some row ->
  0 <= c <= total_weight ->
  exists v, cell f prev c = Some v /\ get row c = Some v.
Proof.
  intros H Hc.
  destruct (mapM_nth _ _ _ H (Z.to_nat c) c) as (v & Hv & Hrow).
  - rewrite zrange_nth by lia. f_equal. lia.
  - exists v. split; [exact Hv|]. apply get_Some. split; [lia | exact Hrow].
Qed.

Lemma next_row_total (f : FoodItem) (prev : list Z) :
  0 <= weight f ->
  length prev = Z.to_nat (total_weight + 1) ->
  exists row, next_row total_weight f prev = Some row.
Proof.
  intros Hf Hlen. apply mapM_total. intros j Hj. apply zrange_In in Hj.
  unfold cell.
  destruct (get_total prev j) as [b Hb]; [lia|].
  destruct (Z.leb_spec (weight f) j).
  - destruct (get_total prev (j - weight f)) as [a Ha]; [lia|].
    rewrite Ha, Hb. simpl. eauto.
  - eauto.
Qed.

(** What [cell] computes, read off its two branches. *)
Lemma cell_cases (f : FoodItem) (prev : list Z) (c v : Z) :
  cell f prev c = Some v ->
  (weight f <= c /\ exists a b,
      get prev (c - weight f) = Some a /\ get prev c = Some b
      /\ v = Z.max (foodCalories f + a) b)
  \/ (c < weight f /\ get prev c = Some v).
Proof.
  unfold cell. destruct (Z.leb_spec (weight f) c) as [Hw|Hw]; intros Hcell.
  - left. split; [assumption|].
    destruct (get prev (c - weight f)) as [a|]; simpl in Hcell; [|discriminate].
    destruct (get prev c) as [b|]; simpl in Hcell; [|discriminate].
    inversion Hcell. eauto.
  - right. auto.
Qed.

Lemma next_row_ok (l : FoodVector) (f : FoodItem) (prev row : list Z) :
  nonneg_weights l ->
  row_ok total_weight l prev ->
  next_row total_weight f prev = Some row ->
  row_ok total_weight (l ++ [f]) row.
Proof.
  intros Hl (Hlen & Hprev) Hrow.
  pose proof (next_row_length _ _ _ Hrow) as Hlen'.
  split; [exact Hlen'|].
  intros c v Hget. pose proof (get_range _ _ _ Hget) as Hc.
  destruct (next_row_cell f prev row c Hrow) as (v' & Hcell & Hget'); [lia|].
  assert (v' = v) by congruence. subst v'.
  destruct (cell_cases _ _ _ _ Hcell)
    as [(Hw & a & b & Ha & Hb & ->) | (Hw & Hb)].
  - apply best_value_take; auto.
  - apply best_value_skip; auto.
Qed.

Lemma table_initial : table_ok total_weight [] [zero_row total_weight].
Proof.
  repeat split.
  - intros [|[|k]] row H; simpl in H; try discriminate.
    inversion H. exact zero_row_length.
  - intros [|k] f H; discriminate.
Qed.

Lemma fill_table_ok (rest : FoodVector) :
  nonneg_weights rest ->
  forall done T, table_ok total_weight done T ->
  exists T', fill_table total_weight rest (length done) T = Some T'
             /\ table_ok total_weight (done ++ rest) T'.
Proof.
  induction 1 as [|f rest Hf Hrest IH]; intros done T HT; simpl.
  - rewrite app_nil_r. eauto.
  - destruct HT as (Hlen & Hrows & Hzero & Hsteps).
    destruct (nth_error T (length done)) as [prev|] eqn:Eprev;
      [|apply nth_error_None in Eprev; lia].
    destruct (next_row_total f prev Hf (Hrows _ _ Eprev)) as [Temp ETemp].
    simpl. rewrite ETemp. simpl.
    replace (S (length done)) with (length (done ++ [f]))
      by (rewrite length_app; simpl; lia).
    replace (done ++ f :: rest) with ((done ++ [f]) ++ rest)
      by (now rewrite <- app_assoc).
    apply IH. repeat split.
    + rewrite !length_app. simpl. lia.
    + intros k row Hk. destruct (Nat.lt_ge_cases k (length T)) as [Hlt|Hge].
      * rewrite nth_error_app1 in Hk by exact Hlt. eauto.
      * rewrite nth_error_app2 in Hk by exact Hge.
        destruct (k - length T)%nat as [|[|k']]; simpl in Hk; try discriminate.
        inversion Hk; subst. eapply next_row_length; eauto.
    + rewrite nth_error_app1 by lia. exact Hzero.
    + intros k g Hk. destruct (Nat.lt_ge_cases k (length done)) as [Hlt|Hge].
      * rewrite nth_error_app1 in Hk by exact Hlt.
        destruct (Hsteps k g Hk) as (p & r & Hp & Hr & Hn).
        exists p, r. rewrite !nth_error_app1 by lia. auto.
      * rewrite nth_error_app2 in Hk by exact Hge.
        destruct (k - length done)%nat as [|[|k']] eqn:Ek; simpl in Hk; try discriminate.
        inversion Hk; subst g. assert (k = length done) by lia. subst k.
        exists prev, Temp. rewrite nth_error_app1 by lia.
        rewrite nth_error_app2 by lia.
        replace (S (length done) - length T)%nat with 0%nat by lia.
        auto.
Qed.

(** Row [k] of the table holds the optima of the first [k] items. *)
Lemma table_rows (foods : FoodVector) (T : list (list Z)) :
  nonneg_weights foods -> table_ok total_weight foods T ->
  forall k, (k <= length foods)%nat ->
  exists row, nth_error T k = Some row /\ row_ok total_weight (firstn k foods) row.
Proof.
  intros Hfoods (Hlen & Hrows & Hzero & Hsteps) k.
  induction k as [|k IH]; intros Hk.
  - exists (zero_row total_weight). split; [exact Hzero | exact zero_row_ok].
  - destruct (nth_error foods k) as [f|] eqn:Ef;
      [|apply nth_error_None in Ef; lia].
    destruct (Hsteps k f Ef) as (prev & row & Hprev & Hrow & Hnext).
    destruct IH as (prev' & Hprev' & Hok); [lia|].
    assert (prev' = prev) by congruence. subst prev'.
    exists row. split; [exact Hrow|].
    rewrite (firstn_snoc _ _ _ Ef).
    eapply next_row_ok; eauto.
    unfold nonneg_weights in *. rewrite <- (firstn_skipn k foods) in Hfoods.
    now apply Forall_app in Hfoods.
Qed.

End Table.

(** ** dynamic_max_calories: the traceback *)

Lemma of_double_in_range (x : Z) :
  Int32.min_int <= x <= Int32.max_int -> Int32.of_double x = x.
Proof.
  intros H. unfold Int32.of_double, Int32.in_range.
  destruct (Z.leb_spec Int32.min_int x); [|lia].
  destruct (Z.leb_spec x Int32.max_int); [reflexivity | lia].
Qed.

Lemma traceback_succ (T : list (list Z)) (foods : FoodVector) (i : nat)
    (best : FoodVector) (step : Z) :
  traceback T foods (S i) best step
  = (here <- get2 T (S i) step ;;
     above <- get2 T i step ;;
     if here =? above then traceback T foods i best step
     else
       food <- nth_error foods i ;;
       traceback T foods i (best ++ [food])
         (Int32.of_double (step - weight food))).
Proof. reflexivity. Qed.

Lemma mask_skip (b i : Z) (f : FoodItem) (rest : FoodVector) :
  0 <= i ->
  exists b', subset_from b' i (f :: rest) = subset_from b (i + 1) rest.
Proof.
  intros Hi. exists (Z.clearbit b i). simpl. rewrite Z.clearbit_eq.
  apply subset_from_ext. intros k Hk. apply Z.clearbit_neq. lia.
Qed.

Lemma mask_take (b i : Z) (f : FoodItem) (rest : FoodVector) :
  0 <= i ->
  exists b', subset_from b' i (f :: rest) = f :: subset_from b (i + 1) rest.
Proof.
  intros Hi. exists (Z.setbit b i). simpl. rewrite Z.setbit_eq by lia.
  f_equal. apply subset_from_ext. intros k Hk. apply Z.setbit_neq; lia.
Qed.

Section Traceback.

Variable total_weight : Z.
Variable foods : FoodVector.
Variable T : list (list Z).
Hypothesis capacity_range : 0 <= total_weight < Int32.max_int.
Hypothesis weights_nonneg : nonneg_weights foods.
Hypothesis table : table_ok total_weight foods T.

Lemma get2_row (i : nat) (row : list Z) (c : Z) :
  nth_error T i = Some row -> get2 T i c = get row c.
Proof. intros H. unfold get2. now rewrite H. Qed.

Lemma traceback_ok (V : Z) (i : nat) :
  (i <= length foods)%nat ->
  forall best step,
    trace_inv total_weight foods T V i best step ->
    exists r, traceback T foods i best step = Some r
              /\ total_weight_of r <= total_weight
              /\ total_calories_of r = V
              /\ exists b, rev r = subset_of b foods.
Proof.
  destruct table as (Hlen & Hrows & Hzero & Hsteps).
  induction i as [|i IH]; intros Hi best step (Hstep & Hwt & (v & Hv & HV) & (b & Hb)).
  - exists best. simpl. repeat split.
    + lia.
    + rewrite (get2_row _ _ _ Hzero) in Hv. apply zero_row_get in Hv. lia.
    + exists b. exact Hb.
  - destruct (nth_error foods i) as [f|] eqn:Ef;
      [|apply nth_error_None in Ef; lia].
    destruct (Hsteps i f Ef) as (prev & row & Hprev & Hrow & Hnext).
    rewrite (get2_row _ _ _ Hrow) in Hv.
    destruct (next_row_cell _ (proj1 capacity_range) f prev row step Hnext Hstep)
      as (v' & Hcell & Hv').
    assert (v' = v) by congruence. subst v'.
    rewrite traceback_succ, (get2_row _ _ _ Hrow), Hv. simpl.
    assert (Hskip : forall above, get prev step = Some above -> v = above ->
              trace_inv total_weight foods T V i best step).
    { intros above Ha ->. repeat split; try lia.
      - exists above. rewrite (get2_row _ _ _ Hprev). auto.
      - destruct (mask_skip b (Z.of_nat i) f (skipn (S i) foods)) as [b' Hb']; [lia|].
        exists b'. rewrite (skipn_cons _ _ _ Ef), Hb', Hb. f_equal. lia. }
    destruct (cell_cases _ _ _ _ Hcell)
      as [(Hw & a & above & Ha & Habove & Hmax) | (Hw & Habove)].
    + rewrite (get2_row _ _ _ Hprev), Habove. simpl.
      destruct (Z.eqb_spec v above) as [E|NE].
      * apply IH; [lia|]. now apply (Hskip above).
      * rewrite Ef. simpl.
        assert (Hf : 0 <= weight f).
        { unfold nonneg_weights in weights_nonneg.
          rewrite Forall_forall in weights_nonneg.
          apply weights_nonneg. eapply nth_error_In; eauto. }
        rewrite of_double_in_range by (unfold Int32.min_int; lia).
        apply IH; [lia|]. repeat split; try lia.
        -- rewrite total_weight_app, total_weight_cons, total_weight_nil. lia.
        -- exists a. rewrite (get2_row _ _ _ Hprev). split; [exact Ha|].
           rewrite total_calories_app, total_calories_cons, total_calories_nil. lia.
        -- destruct (mask_take b (Z.of_nat i) f (skipn (S i) foods)) as [b' Hb']; [lia|].
           exists b'. rewrite (skipn_cons _ _ _ Ef), Hb', rev_unit, Hb.
           do 2 f_equal. lia.
    + rewrite (get2_row _ _ _ Hprev), Habove. simpl.
      rewrite Z.eqb_refl. apply IH; [lia|]. now apply (Hskip v).
Qed.

End Traceback.

(** The order of the items in the result, for any table. *)

Lemma decreasing_snoc (idxs : list nat) (i : nat) :
  decreasing idxs -> Forall (fun k => (i < k)%nat) idxs ->
  decreasing (idxs ++ [i]).
Proof.
  unfold decreasing. induction 1 as [|k l Hl IH Hk]; intros Hall; simpl.
  - repeat constructor.
  - inversion Hall; subst. constructor; [now apply IH|].
    apply Forall_app. split; [exact Hk | now repeat constructor].
Qed.

Lemma decreasing_NoDup (idxs : list nat) : decreasing idxs -> NoDup idxs.
Proof.
  unfold decreasing. induction 1 as [|k l Hl IH Hk]; constructor; [|exact IH].
  intros Hin. rewrite Forall_forall in Hk. specialize (Hk k Hin). lia.
Qed.

Lemma traceback_indices (T : list (list Z)) (foods : FoodVector) (i : nat) :
  forall best step r idxs,
    traceback T foods i best step = Some r ->
    picks foods idxs best -> decreasing idxs ->
    Forall (fun k => (i <= k)%nat) idxs ->
    exists idxs', picks foods idxs' r /\ decreasing idxs'.
Proof.
  induction i as [|i IH]; intros best step r idxs Hr Hp Hd Hall.
  - simpl in Hr. inversion Hr; subst. eauto.
  - rewrite traceback_succ in Hr.
    destruct (get2 T (S i) step) as [here|]; simpl in Hr; [|discriminate].
    destruct (get2 T i step) as [above|]; simpl in Hr; [|discriminate].
    destruct (here =? above).
    + eapply IH; eauto. eapply Forall_impl; [|exact Hall]. simpl. intros; lia.
    + destruct (nth_error foods i) as [f|] eqn:Ef; simpl in Hr; [|discriminate].
      eapply (IH _ _ _ (idxs ++ [i])); eauto.
      * apply Forall2_app; [exact Hp | now repeat constructor].
      * apply decreasing_snoc; [exact Hd|].
        eapply Forall_impl; [|exact Hall]. simpl. intros; lia.
      * apply Forall_app. split.
        -- eapply Forall_impl; [|exact Hall]. simpl. intros; lia.
        -- repeat constructor.
Qed.

(** ** dynamic_max_calories: summary *)

Lemma dynamic_spec (foods : FoodVector) (total_weight : Z) :
  nonneg_weights foods -> 0 <= total_weight < Int32.max_int ->
  exists T best,
    fill_table total_weight foods 0 [zero_row total_weight] = Some T
    /\ dynamic_max_calories foods total_weight = Some best
    /\ get2 T (length foods) total_weight = Some (total_calories_of best)
    /\ best_value foods total_weight (total_calories_of best)
    /\ total_weight_of best <= total_weight
    /\ exists b, rev best = subset_of b foods.
Proof.
  intros Hfoods HW.
  destruct (fill_table_ok total_weight (proj1 HW) foods Hfoods [] _
              (table_initial total_weight))
    as (T & HT & Htable).
  simpl in HT, Htable.
  destruct (table_rows total_weight (proj1 HW) foods T Hfoods Htable
              (length foods) (le_n _))
    as (row & Hrow & Hlen & Hbest).
  rewrite firstn_all in Hbest.
  destruct (get_total row total_weight) as [V HV]; [lia|].
  destruct (traceback_ok total_weight foods T HW Hfoods Htable V (length foods) (le_n _)
              [] total_weight) as (r & Hr & Hwt & Hcal & Hmask).
  { split; [lia|]. split; [rewrite total_weight_nil; lia|]. split.
    - exists V. rewrite (get2_row T _ _ _ Hrow), total_calories_nil. split; [exact HV | lia].
    - exists 0. now rewrite skipn_all. }
  exists T, r. repeat split; try assumption.
  - unfold dynamic_max_calories.
    destruct (Z.leb_spec Int32.max_int total_weight); [lia|].
    rewrite HT. simpl. rewrite of_double_in_range by (unfold Int32.min_int; lia).
    exact Hr.
  - rewrite Hcal, (get2_row T _ _ _ Hrow). exact HV.
  - rewrite Hcal. now apply Hbest.
  - rewrite Hcal. now apply Hbest.
Qed.


(** A run of [dynamic_max_calories] that returns a vector at a non-negative
    capacity read no entry out of range: every weight was non-negative. *)

Lemma next_row_nonneg (total_weight : Z) (f : FoodItem) (prev row : list Z) :
  0 <= total_weight ->
  length prev = Z.to_nat (total_weight + 1) ->
  next_row total_weight f prev = Some row ->
  0 <= weight f.
Proof.
  intros HW Hlen Hrow.
  destruct (next_row_cell total_weight HW f prev row total_weight Hrow)
    as (v & Hcell & _); [lia|].
  destruct (cell_cases _ _ _ _ Hcell) as [(_ & a & b & Ha & _) | (Hw & _)]; [|lia].
  apply get_range in Ha. lia.
Qed.

Lemma fill_table_nonneg (total_weight : Z) (rest : FoodVector) :
  0 <= total_weight ->
  forall i T T',
    (forall k row, nth_error T k = Some row ->
                   length row = Z.to_nat (total_weight + 1)) ->
    fill_table total_weight rest i T = Some T' ->
    nonneg_weights rest.
Proof.
  intros HW. induction rest as [|f rest IH]; intros i T T' Hrows HT.
  - constructor.
  - simpl in HT.
    destruct (nth_error T i) as [prev|] eqn:Eprev; simpl in HT; [|discriminate].
    destruct (next_row total_weight f prev) as [Temp|] eqn:ETemp; simpl in HT;
      [|discriminate].
    constructor.
    + eapply next_row_nonneg; eauto.
    + apply (IH (S i) (T ++ [Temp]) T'); [|exact HT].
      intros k row Hk. destruct (Nat.lt_ge_cases k (length T)) as [Hlt|Hge].
      * rewrite nth_error_app1 in Hk by exact Hlt. eauto.
      * rewrite nth_error_app2 in Hk by exact Hge.
        destruct (k - length T)%nat as [|[|k']]; simpl in Hk; try discriminate.
        inversion Hk; subst. eapply next_row_length; eauto.
Qed.

Lemma dynamic_Some_nonneg (foods best : FoodVector) (total_weight : Z) :
  0 <= total_weight ->
  dynamic_max_calories foods total_weight = Some best ->
  nonneg_weights foods /\ total_weight < Int32.max_int.
Proof.
  intros HW H. unfold dynamic_max_calories in H.
  destruct (Z.leb_spec Int32.max_int total_weight); [discriminate|].
  split; [|assumption].
  destruct (fill_table total_weight foods 0 [zero_row total_weight]) as [T|] eqn:ET;
    simpl in H; [|discriminate].
  apply (fill_table_nonneg total_weight foods HW 0 [zero_row total_weight] T);
    [|exact ET].
  intros [|[|k]] row Hk; simpl in Hk; try discriminate.
  inversion Hk. apply zero_row_length.
Qed.

(** ** exhaustive_max_calories: summary *)

Lemma subset_of_zero (foods : FoodVector) : subset_of 0 foods = [].
Proof. apply subset_from_clear. intros k _. apply Z.bits_0. Qed.

Lemma subset_calories_nonpos (b j : Z) (l : FoodVector) :
  Forall (fun f => foodCalories f <= 0) l ->
  total_calories_of (subset_from b j l) <= 0.
Proof.
  intros H. revert j. induction H as [|f l Hf Hl IH]; intros j; simpl.
  - rewrite total_calories_nil. lia.
  - destruct (Z.testbit b j); [rewrite total_calories_cons|]; specialize (IH (j + 1)); lia.
Qed.

(** Up to 30 items the result is the first subset, in mask order, among the
    fitting subsets of greatest positive total; it is empty when there is
    none. *)
Lemma exhaustive_spec (foods : FoodVector) (total_weight : Z) :
  (length foods <= 30)%nat ->
  exists best,
    exhaustive_max_calories foods total_weight = Some best
    /\ 0 <= total_calories_of best
    /\ (forall b, 0 <= b < 2 ^ Z.of_nat (length foods) ->
          fits total_weight foods b -> value foods b <= total_calories_of best)
    /\ (best = []
        \/ exists b0, 0 <= b0 < 2 ^ Z.of_nat (length foods)
             /\ best = subset_of b0 foods
             /\ fits total_weight foods b0
             /\ 0 < total_calories_of best
             /\ forall b, 0 <= b < b0 -> fits total_weight foods b ->
                          value foods b < total_calories_of best).
Proof.
  intros Hn.
  destruct (exhaustive_search_covered foods total_weight Hn) as (Hc & H0 & Hmax & Hbest).
  exists (BestFoodVector (exhaustive_search foods total_weight)).
  rewrite <- Hc.
  split; [apply exhaustive_accepts; lia|]. auto.
Qed.

Lemma exhaustive_large (foods : FoodVector) (total_weight : Z) :
  (31 <= length foods < 64)%nat ->
  exhaustive_max_calories foods total_weight = Some [].
Proof.
  intros H. rewrite exhaustive_accepts by lia.
  now rewrite exhaustive_search_large by lia.
Qed.

(** Whatever [exhaustive_max_calories] returns is empty or the subset of a
    mask that fits; this holds for every catalog. *)
Lemma exhaustive_result_shape (foods best : FoodVector) (total_weight : Z) :
  exhaustive_max_calories foods total_weight = Some best ->
  best = []
  \/ exists b0, best = subset_of b0 foods /\ fits total_weight foods b0
                /\ 0 < total_calories_of best.
Proof.
  intros H. unfold exhaustive_max_calories in H.
  destruct (Int32.wrap (Z.of_nat (length foods)) <? 64); [|discriminate].
  inversion H as [Hbest]. clear H.
  destruct (Nat.le_gt_cases (length foods) 30) as [Hn|Hn].
  - destruct (exhaustive_search_covered foods total_weight Hn)
      as (Hc & _ & _ & [Hnil | (b0 & _ & Hb0 & Hfit & Hpos & _)]).
    + now left.
    + right. exists b0. rewrite <- Hc. auto.
  - left. now rewrite exhaustive_search_large by lia.
Qed.

(** No value of an [int] equals the number [2^n] of masks once [n >= 31],
    whatever the out-of-range conversion delivers. *)
Lemma int_below_mask_count (z : Z) (n : nat) :
  Int32.in_range z = true -> (31 <= n)%nat -> z < 2 ^ Z.of_nat n.
Proof.
  unfold Int32.in_range, Int32.max_int. intros Hz Hn.
  apply andb_prop in Hz as [_ Hz]. apply Z.leb_le in Hz.
  assert (2 ^ 31 <= 2 ^ Z.of_nat n) by (apply Z.pow_le_mono_r; lia).
  lia.
Qed.

Lemma exhaustive_nothing_gained (foods : FoodVector) (total_weight : Z) :
  (length foods < 64)%nat ->
  (forall b, fits total_weight foods b -> value foods b <= 0) ->
  exhaustive_max_calories foods total_weight = Some [].
Proof.
  intros Hn Hnone.
  rewrite exhaustive_accepts by exact Hn. f_equal.
  destruct (exhaustive_result_shape foods _ total_weight
              (exhaustive_accepts foods total_weight Hn))
    as [Hnil | (b0 & Hb0 & Hfit & Hpos)]; [exact Hnil|].
  specialize (Hnone b0 Hfit). unfold value in Hnone.
  rewrite <- Hb0 in Hnone. lia.
Qed.

(** In particular the result is empty when only the empty subset fits, as
    at capacity 0 with positive weights, or when nothing fits. *)
Lemma exhaustive_empty_when_nothing_fits (foods : FoodVector) (total_weight : Z) :
  (length foods < 64)%nat ->
  (forall b, fits total_weight foods b -> subset_of b foods = []) ->
  exhaustive_max_calories foods total_weight = Some [].
Proof.
  intros Hn Hnone. apply exhaustive_nothing_gained; [exact Hn|].
  intros b Hfit. unfold value. rewrite (Hnone b Hfit), total_calories_nil. lia.
Qed.


(** What a run of [dynamic_max_calories] that returns a vector at a
    non-negative capacity has computed. *)
Lemma dynamic_Some_spec (foods best : FoodVector) (total_weight : Z) :
  0 <= total_weight ->
  dynamic_max_calories foods total_weight = Some best ->
  exists T,
    fill_table total_weight foods 0 [zero_row total_weight] = Some T
    /\ get2 T (length foods) total_weight = Some (total_calories_of best)
    /\ best_value foods total_weight (total_calories_of best)
    /\ total_weight_of best <= total_weight
    /\ exists b, rev best = subset_of b foods.
Proof.
  intros HW H.
  destruct (dynamic_Some_nonneg _ _ _ HW H) as [Hw Hmax].
  destruct (dynamic_spec foods total_weight Hw (conj HW Hmax))
    as (T & best' & HT & Hbest' & Hrest).
  assert (best' = best) by congruence. subst best'.
  exists T. split; [exact HT | exact Hrest].
Qed.

Lemma dynamic_returns (foods : FoodVector) (total_weight : Z) :
  nonneg_weights foods -> 0 <= total_weight < Int32.max_int ->
  exists best, dynamic_max_calories foods total_weight = Some best.
Proof.
  intros Hw HW.
  destruct (dynamic_spec foods total_weight Hw HW) as (T & best & _ & Hbest & _).
  eauto.
Qed.

(** ** Exact sums *)

(** Under [exact_calories] and [exact_weights] no sum over a subset of the
    catalog leaves the range in which binary64 holds every integer. *)
Lemma subset_calories_bounded (b j : Z) (l : FoodVector) :
  Z.abs (total_calories_of (subset_from b j l)) <= calorie_magnitude l.
Proof.
  revert j. induction l as [|f l IH]; intros j; cbn [subset_from calorie_magnitude fold_right].
  - rewrite total_calories_nil. simpl. lia.
  - specialize (IH (j + 1)). fold (calorie_magnitude l).
    destruct (Z.testbit b j); [rewrite total_calories_cons|]; lia.
Qed.

Lemma subset_weight_bounded (b j : Z) (l : FoodVector) :
  Z.abs (total_weight_of (subset_from b j l)) <= weight_magnitude l.
Proof.
  revert j. induction l as [|f l IH]; intros j; cbn [subset_from weight_magnitude fold_right].
  - rewrite total_weight_nil. simpl. lia.
  - specialize (IH (j + 1)). fold (weight_magnitude l).
    destruct (Z.testbit b j); [rewrite total_weight_cons|]; lia.
Qed.

(** * Properties of the specification *)

(** ** Agreement of the two solvers *)

(** C1, as stated, fails in the arithmetic of the code.  On three items of
    weight 1 and calories 0.1, 0.2 and 0.3 at capacity 3 both solvers
    return all three items, the exhaustive search in catalog order and the
    dynamic program in reverse order, and the total calories that
    [sum_food_vector] computes are 0.6000000000000001 for the first and
    0.6 for the second. *)
Lemma agreement_fails_on_rounded_sums :
  exists best_ex best_dp,
    Binary64.exhaustive_max_calories Binary64.tenths (Binary64.of_int 3)
    = Some best_ex
    /\ Binary64.dynamic_max_calories Binary64.tenths (Binary64.of_int 3)
       = Some best_dp
    /\ PrimFloat.ltb (snd (Binary64.sum_food_vector best_dp))
         (snd (Binary64.sum_food_vector best_ex)) = true.
Proof.
  eexists. eexists. split; [|split].
  - vm_compute. reflexivity.
  - vm_compute. reflexivity.
  - vm_compute. reflexivity.
Qed.

(** C1, amended. For a catalog of fewer than 20 items whose calories are
    integers with exact sums ([exact_calories]) and a non-negative integer
    capacity, the vectors that [exhaustive_max_calories] and
    [dynamic_max_calories] return have equal total calories; and both do
    return a vector when the weights are non-negative integers and the
    capacity is in the range of the [int] column counter. *)
Theorem exhaustive_dynamic_agree (foods : FoodVector) (total_weight : Z) :
  (length foods < 20)%nat ->
  exact_calories foods ->
  0 <= total_weight ->
  (forall best_ex best_dp,
      exhaustive_max_calories foods total_weight = Some best_ex ->
      dynamic_max_calories foods total_weight = Some best_dp ->
      snd (sum_food_vector best_ex) = snd (sum_food_vector best_dp))
  /\ (nonneg_weights foods -> total_weight < Int32.max_int ->
      exists best_ex best_dp,
        exhaustive_max_calories foods total_weight = Some best_ex
        /\ dynamic_max_calories foods total_weight = Some best_dp).
Proof.
  intros Hn _ HW.
  destruct (exhaustive_spec foods total_weight ltac:(lia))
    as (be & Hbe & Hbe0 & Hmax & Hshape).
  split.
  - intros be' bd Hbe' Hbd.
    assert (be' = be) by congruence. subst be'.
    destruct (dynamic_Some_spec foods bd total_weight HW Hbd)
      as (T & _ & _ & (Hupper & _) & Hfit & (b & Hb)).
    change (total_calories_of be = total_calories_of bd).
    apply Z.le_antisymm.
    + destruct Hshape as [-> | (b0 & _ & Hb0 & Hfit0 & _)].
      * rewrite <- (subset_of_zero foods).
        apply Hupper. rewrite subset_of_zero, total_weight_nil. lia.
      * rewrite Hb0. now apply Hupper.
    + specialize (Hmax (b mod 2 ^ Z.of_nat (length foods)) (mask_mod_range _ _)).
      unfold fits, value in Hmax.
      rewrite subset_of_mod, <- Hb, total_weight_rev, total_calories_rev in Hmax.
      now apply Hmax.
  - intros Hw Hmaxint.
    destruct (dynamic_returns foods total_weight Hw (conj HW Hmaxint)) as [bd Hbd].
    eauto.
Qed.

Lemma exhaustive_dynamic_agree_witness :
  snd (sum_food_vector [item 2 3; item 3 4])
  = snd (sum_food_vector [item 3 4; item 2 3])
  /\ exists best_ex best_dp,
       exhaustive_max_calories catalog4 5 = Some best_ex
       /\ dynamic_max_calories catalog4 5 = Some best_dp.
Proof.
  assert (Hn : (length catalog4 < 20)%nat) by (simpl; lia).
  assert (He : exact_calories catalog4) by (vm_compute; discriminate).
  assert (HW : 0 <= 5) by lia.
  split.
  - apply (proj1 (exhaustive_dynamic_agree catalog4 5 Hn He HW)); reflexivity.
  - apply (proj2 (exhaustive_dynamic_agree catalog4 5 Hn He HW)).
    + unfold nonneg_weights, catalog4. repeat constructor; simpl; lia.
    + unfold Int32.max_int. lia.
Defined.

(** ** The exhaustive search *)

(** C2.  The claim covers every catalog of fewer than 64 items.  On the
    catalog of 31 items of weight 1 and 1 calorie, with capacity 1, the
    search passes its assertion and returns the empty vector, although the
    subset of mask 1 fits and is worth more. *)
Theorem exhaustive_suboptimal_at_31 :
  (length catalog31 < 64)%nat
  /\ exhaustive_max_calories catalog31 1 = Some []
  /\ fits 1 catalog31 1
  /\ snd (sum_food_vector []) < value catalog31 1.
Proof.
  assert (E : subset_of 1 catalog31 = [item 1 1]) by reflexivity.
  unfold fits, value. rewrite E.
  repeat split.
  - simpl. lia.
  - vm_compute. intros H. discriminate H.
Qed.

(** C4.  With 31 items [pow(2, 31)] does not fit the [int] [bitSize]: the
    assertion [n < 64] passes, [bitSize] is not positive, the loop over the
    masks has no round and the result is empty. *)
Theorem bitSize_overflows_at_31 :
  (length catalog31 < 64)%nat
  /\ Int32.in_range (2 ^ Z.of_nat (length catalog31)) = false
  /\ bitSize catalog31 = Int32.min_int
  /\ zrange (bitSize catalog31) = []
  /\ exhaustive_max_calories catalog31 31 = Some [].
Proof.
  repeat split.
  simpl. lia.
Qed.

(** C9. When no item has positive calories the exhaustive search returns
    the empty vector, at every capacity: every vector it returns is empty,
    and it returns one whenever the catalog has fewer than 64 items. *)
Theorem exhaustive_nonpositive_empty (foods : FoodVector) (total_weight : Z) :
  Forall (fun f => foodCalories f <= 0) foods ->
  (forall best, exhaustive_max_calories foods total_weight = Some best -> best = [])
  /\ ((length foods < 64)%nat ->
      exhaustive_max_calories foods total_weight = Some []).
Proof.
  intros Hcal. split.
  - intros best H.
    destruct (exhaustive_result_shape _ _ _ H) as [Hnil | (b0 & Hb0 & _ & Hpos)];
      [exact Hnil|].
    pose proof (subset_calories_nonpos b0 0 foods Hcal) as Hle.
    unfold subset_of in Hb0. rewrite <- Hb0 in Hle. lia.
  - intros Hn. apply exhaustive_nothing_gained; [exact Hn|].
    intros b _. apply subset_calories_nonpos. exact Hcal.
Qed.

Lemma exhaustive_nonpositive_empty_witness :
  (forall best,
      exhaustive_max_calories [item 1 0; item 2 (-3)] 10 = Some best -> best = [])
  /\ exhaustive_max_calories [item 1 0; item 2 (-3)] 10 = Some [].
Proof.
  assert (Hcal : Forall (fun f => foodCalories f <= 0) [item 1 0; item 2 (-3)])
    by (repeat constructor; simpl; lia).
  split.
  - apply (proj1 (exhaustive_nonpositive_empty _ 10 Hcal)).
  - apply (proj2 (exhaustive_nonpositive_empty _ 10 Hcal)). simpl. lia.
Defined.

(** ** The dynamic program *)

(** C3, as stated, fails in the arithmetic of the code.  On three items of
    weight 1 and calories 0.1, 0.2 and 0.3 at capacity 3 the entry
    [T[3][3]] is 0.6000000000000001 while the calories of the vector
    returned total 0.6; and on two items of weight 1.5 and 10 calories at
    capacity 3 one item is returned although both fit. *)
Lemma table_entry_differs_on_rounded_sums :
  (exists T best v,
      Binary64.table Binary64.tenths (Binary64.of_int 3) = Some T
      /\ Binary64.dynamic_max_calories Binary64.tenths (Binary64.of_int 3)
         = Some best
      /\ Binary64.get2 T 3 3 = Some v
      /\ PrimFloat.eqb v (snd (Binary64.sum_food_vector best)) = false)
  /\ Binary64.dynamic_max_calories Binary64.halves (Binary64.of_int 3)
     = Some [Binary64.half_item]
  /\ PrimFloat.leb (fst (Binary64.sum_food_vector Binary64.halves))
       (Binary64.of_int 3) = true.
Proof.
  split; [|split].
  - eexists. eexists. eexists. split; [|split; [|split]].
    + vm_compute. reflexivity.
    + vm_compute. reflexivity.
    + vm_compute. reflexivity.
    + vm_compute. reflexivity.
  - vm_compute. reflexivity.
  - vm_compute. reflexivity.
Qed.

(** C3, amended. For integer weights and integer calories with exact sums
    ([exact_calories]) and a non-negative integer capacity [W], a vector
    returned by [dynamic_max_calories] has total calories equal to the
    entry [T[N][W]] of the table the run has filled; that entry is the
    greatest total of calories of a subset of the catalog of total weight
    at most [W], and the vector returned is such a subset (its reverse
    lists the items of an inclusion mask).  A vector is returned when the
    weights are non-negative and [W] is in the range of the column
    counter.  On the catalog of weights 2, 3, 4, 5 and calories 3, 4, 5, 6
    with capacity 5 the result is the items of weights 3 and 2, of total
    weight 5 and 7 calories. *)
Theorem dynamic_optimal :
  (forall (foods best : FoodVector) (total_weight : Z),
      exact_calories foods ->
      0 <= total_weight ->
      dynamic_max_calories foods total_weight = Some best ->
      exists T,
        fill_table total_weight foods 0 [zero_row total_weight] = Some T
        /\ get2 T (length foods) total_weight = Some (snd (sum_food_vector best))
        /\ best_value foods total_weight (snd (sum_food_vector best))
        /\ fst (sum_food_vector best) <= total_weight
        /\ exists b, rev best = subset_of b foods)
  /\ (forall (foods : FoodVector) (total_weight : Z),
        nonneg_weights foods -> 0 <= total_weight < Int32.max_int ->
        exists best, dynamic_max_calories foods total_weight = Some best)
  /\ dynamic_max_calories catalog4 5 = Some [item 3 4; item 2 3]
  /\ sum_food_vector [item 3 4; item 2 3] = (5, 7).
Proof.
  split; [|split; [|split; reflexivity]].
  - intros foods best total_weight _ HW H.
    exact (dynamic_Some_spec foods best total_weight HW H).
  - exact dynamic_returns.
Qed.

Lemma dynamic_optimal_witness :
  (exists T,
      fill_table 5 catalog4 0 [zero_row 5] = Some T
      /\ get2 T (length catalog4) 5 = Some (snd (sum_food_vector [item 3 4; item 2 3]))
      /\ best_value catalog4 5 (snd (sum_food_vector [item 3 4; item 2 3]))
      /\ fst (sum_food_vector [item 3 4; item 2 3]) <= 5
      /\ exists b, rev [item 3 4; item 2 3] = subset_of b catalog4)
  /\ exists best, dynamic_max_calories catalog4 5 = Some best.
Proof.
  split.
  - apply (proj1 dynamic_optimal catalog4 [item 3 4; item 2 3] 5).
    + vm_compute. discriminate.
    + lia.
    + reflexivity.
  - apply (proj1 (proj2 dynamic_optimal) catalog4 5).
    + unfold nonneg_weights, catalog4. repeat constructor; simpl; lia.
    + unfold Int32.max_int. lia.
Defined.

(** C10. A vector returned by [dynamic_max_calories] lists catalog items at
    strictly decreasing catalog indices, so no index occurs twice; a vector
    is returned when the weights are non-negative integers and the capacity
    is non-negative and in the range of the column counter. *)
Theorem dynamic_decreasing_order (foods : FoodVector) (total_weight : Z) :
  (forall best,
      dynamic_max_calories foods total_weight = Some best ->
      exists idxs, picks foods idxs best /\ decreasing idxs /\ NoDup idxs)
  /\ (nonneg_weights foods -> 0 <= total_weight < Int32.max_int ->
      exists best, dynamic_max_calories foods total_weight = Some best).
Proof.
  split; [|apply dynamic_returns].
  intros best Htrace. unfold dynamic_max_calories in Htrace.
  destruct (Int32.max_int <=? total_weight); [discriminate|].
  destruct (fill_table total_weight foods 0 [zero_row total_weight]) as [T|];
    simpl in Htrace; [|discriminate].
  destruct (traceback_indices T foods (length foods) [] _ best [] Htrace)
    as (idxs & Hp & Hd).
  - constructor.
  - constructor.
  - constructor.
  - exists idxs. repeat split; try assumption. now apply decreasing_NoDup.
Qed.

Lemma dynamic_decreasing_order_witness :
  (exists idxs,
      picks catalog4 idxs [item 3 4; item 2 3] /\ decreasing idxs /\ NoDup idxs)
  /\ exists best, dynamic_max_calories catalog4 5 = Some best.
Proof.
  split.
  - apply (proj1 (dynamic_decreasing_order catalog4 5)). reflexivity.
  - apply (proj2 (dynamic_decreasing_order catalog4 5)).
    + unfold nonneg_weights, catalog4. repeat constructor; simpl; lia.
    + unfold Int32.max_int. lia.
Defined.

(** ** Feasibility and monotonicity *)




(** C8, as stated, fails for the dynamic program in the arithmetic of the
    code.  On the items of weights 2, 2, 2, 5 and calories 1, 1, 2^53,
    2^53 + 2 it returns 2^53 + 2 calories at capacity 5 and 2^53 calories
    at capacity 6. *)
Lemma monotonicity_fails_on_rounded_sums :
  exists r1 r2,
    Binary64.dynamic_max_calories Binary64.around_2_53 (Binary64.of_int 5)
    = Some r1
    /\ Binary64.dynamic_max_calories Binary64.around_2_53 (Binary64.of_int 6)
       = Some r2
    /\ PrimFloat.ltb (snd (Binary64.sum_food_vector r2))
         (snd (Binary64.sum_food_vector r1)) = true.
Proof.
  eexists. eexists. split; [|split].
  - vm_compute. reflexivity.
  - vm_compute. reflexivity.
  - vm_compute. reflexivity.
Qed.

(** C8, amended. For a fixed catalog and capacities [c1 <= c2], the vector
    a solver returns at [c2] has at least the total calories of the one it
    returns at [c1]: for the exhaustive search on every catalog of fewer
    than 64 items (where it does return), for the dynamic program at
    non-negative capacities when the calories are integers with exact sums
    ([exact_calories]; it returns when the weights are non-negative
    integers and [c2] is in the range of the column counter). *)
Theorem capacity_monotone (foods : FoodVector) (c1 c2 : Z) :
  c1 <= c2 ->
  ((length foods < 64)%nat ->
   exists r1 r2,
     exhaustive_max_calories foods c1 = Some r1
     /\ exhaustive_max_calories foods c2 = Some r2
     /\ snd (sum_food_vector r1) <= snd (sum_food_vector r2))
  /\ (0 <= c1 -> exact_calories foods ->
      (forall r1 r2,
          dynamic_max_calories foods c1 = Some r1 ->
          dynamic_max_calories foods c2 = Some r2 ->
          snd (sum_food_vector r1) <= snd (sum_food_vector r2))
      /\ (nonneg_weights foods -> c2 < Int32.max_int ->
          exists r1 r2,
            dynamic_max_calories foods c1 = Some r1
            /\ dynamic_max_calories foods c2 = Some r2)).
Proof.
  intros Hc. split.
  - intros Hn. destruct (Nat.le_gt_cases (length foods) 30) as [Hsmall|Hlarge].
    + destruct (exhaustive_spec foods c1 Hsmall) as (r1 & Hr1 & _ & _ & Hshape).
      destruct (exhaustive_spec foods c2 Hsmall) as (r2 & Hr2 & H0 & Hmax & _).
      exists r1, r2. repeat split; try assumption.
      change (total_calories_of r1 <= total_calories_of r2).
      destruct Hshape as [-> | (b0 & Hb0 & -> & Hfit & _)].
      * now rewrite total_calories_nil.
      * apply Hmax; [exact Hb0|]. unfold fits in *. lia.
    + exists [], []. rewrite !exhaustive_large by lia. repeat split. lia.
  - intros H1 _. split.
    + intros r1 r2 Hr1 Hr2.
      destruct (dynamic_Some_spec foods r1 c1 H1 Hr1)
        as (T1 & _ & _ & _ & Hfit & (b & Hb)).
      destruct (dynamic_Some_spec foods r2 c2 ltac:(lia) Hr2)
        as (T2 & _ & _ & (Hupper & _) & _).
      change (total_calories_of r1 <= total_calories_of r2).
      rewrite <- (total_calories_rev r1), Hb. apply Hupper.
      rewrite <- Hb, total_weight_rev. lia.
    + intros Hw H2.
      destruct (dynamic_returns foods c1 Hw ltac:(lia)) as [r1 Hr1].
      destruct (dynamic_returns foods c2 Hw ltac:(lia)) as [r2 Hr2].
      eauto.
Qed.

Lemma capacity_monotone_witness :
  (exists r1 r2,
     exhaustive_max_calories catalog4 3 = Some r1
     /\ exhaustive_max_calories catalog4 5 = Some r2
     /\ snd (sum_food_vector r1) <= snd (sum_food_vector r2))
  /\ snd (sum_food_vector [item 3 4]) <= snd (sum_food_vector [item 3 4; item 2 3])
  /\ (exists r1 r2,
        dynamic_max_calories catalog4 3 = Some r1
        /\ dynamic_max_calories catalog4 5 = Some r2).
Proof.
  assert (H35 : 3 <= 5) by lia.
  assert (H3 : 0 <= 3) by lia.
  assert (He : exact_calories catalog4) by (vm_compute; discriminate).
  split; [|split].
  - apply (proj1 (capacity_monotone catalog4 3 5 H35)). simpl. lia.
  - apply (proj1 (proj2 (capacity_monotone catalog4 3 5 H35) H3 He)); reflexivity.
  - apply (proj2 (proj2 (capacity_monotone catalog4 3 5 H35) H3 He)).
    + unfold nonneg_weights, catalog4. repeat constructor; simpl; lia.
    + unfold Int32.max_int. lia.
Defined.

(** ** The filter and the rejection of arguments *)

(** C6. For a positive [total_size], [filter_food_vector] returns the first
    [total_size] items of the source whose calories lie between
    [min_calories] and [max_calories] inclusive (all of them when there are
    fewer), in source order; on the calories 5, 50, 10, 200, 15 with range
    10 to 100 and size 2 it returns the items of 50 and 10 calories. *)
Theorem filter_first_matches :
  (forall (source : FoodVector) (min_calories max_calories total_size : Z),
      0 < total_size ->
      filter_food_vector source min_calories max_calories total_size
      = Some (firstn (Z.to_nat total_size)
                (filter (fun food => (min_calories <=? foodCalories food)
                                     && (foodCalories food <=? max_calories))
                   source)))
  /\ option_map (map foodCalories) (filter_food_vector values5 10 100 2)
     = Some [50; 10].
Proof.
  split; [|reflexivity].
  intros source mn mx k Hk. unfold filter_food_vector.
  destruct (Z.leb_spec k 0); [lia|].
  f_equal. rewrite filter_loop_spec by (simpl; lia). reflexivity.
Qed.

Lemma filter_first_matches_witness :
  filter_food_vector values5 10 100 2
  = Some (firstn (Z.to_nat 2)
            (filter (fun food => (10 <=? foodCalories food)
                                 && (foodCalories food <=? 100))
               values5)).
Proof.
  apply (proj1 filter_first_matches values5 10 100 2). lia.
Defined.

(** C7, as stated, fails for the solvers: given a negative capacity the
    exhaustive search returns a vector, and so does the dynamic program on
    the empty catalog. *)
Lemma negative_capacity_accepted :
  exhaustive_max_calories catalog4 (-5) = Some []
  /\ dynamic_max_calories [] (-5) = Some [].
Proof. split; reflexivity. Qed.

(** C7, amended. [filter_food_vector] rejects a [total_size] that is not
    positive, before it looks at the source.  The solvers do not test the
    capacity: at a negative capacity the exhaustive search returns the empty
    vector (fewer than 64 items, non-negative weights), and the dynamic
    program returns the empty vector on the empty catalog. *)
Theorem invalid_arguments :
  (forall (source : FoodVector) (min_calories max_calories total_size : Z),
      total_size <= 0 ->
      filter_food_vector source min_calories max_calories total_size = None)
  /\ (forall (foods : FoodVector) (total_weight : Z),
        total_weight < 0 -> (length foods < 64)%nat -> nonneg_weights foods ->
        exhaustive_max_calories foods total_weight = Some [])
  /\ (forall total_weight : Z,
        total_weight < 0 -> dynamic_max_calories [] total_weight = Some []).
Proof.
  repeat split.
  - intros source mn mx k Hk. unfold filter_food_vector.
    destruct (Z.leb_spec k 0); [reflexivity | lia].
  - intros foods W HW Hn Hw. apply exhaustive_nothing_gained; [exact Hn|].
    intros b Hfit. unfold fits in Hfit.
    pose proof (subset_weight_nonneg b 0 foods Hw). unfold subset_of in Hfit. lia.
  - intros W HW. unfold dynamic_max_calories.
    destruct (Z.leb_spec Int32.max_int W); [unfold Int32.max_int in *; lia|].
    reflexivity.
Qed.

Lemma invalid_arguments_witness :
  filter_food_vector values5 10 100 0 = None
  /\ exhaustive_max_calories catalog4 (-5) = Some []
  /\ dynamic_max_calories [] (-5) = Some [].
Proof.
  destruct invalid_arguments as (Hfilter & Hex & Hdp).
  split; [|split].
  - apply Hfilter. lia.
  - apply Hex.
    + lia.
    + simpl. lia.
    + unfold nonneg_weights, catalog4. repeat constructor; simpl; lia.
  - apply Hdp. lia.
Defined.

(** * Further properties of the code *)

(** ** The loader: fields of a line *)

(** [split_fields] unrolls as the loop of [getline] calls it stands for. *)
Lemma split_fields_getline (s : string) :
  s <> EmptyString ->
  split_fields s = fst (getline_delim s) :: split_fields (snd (getline_delim s)).
Proof.
  induction s as [|c rest IH]; intros Hs; [congruence|].
  simpl. destruct (Ascii.eqb c "^"); [reflexivity|].
  destruct rest as [|c' rest']; [reflexivity|].
  rewrite IH by discriminate. reflexivity.
Qed.

Lemma has_delim_cons (c : ascii) (s : string) :
  has_delim (String c s) = false -> Ascii.eqb c "^" = false /\ has_delim s = false.
Proof. simpl. intros H. now apply orb_false_elim in H. Qed.

Lemma split_fields_single (f : string) :
  has_delim f = false -> f <> EmptyString -> split_fields f = [f].
Proof.
  induction f as [|c rest IH]; intros Hd Hf; [congruence|].
  apply has_delim_cons in Hd as [Hc Hrest].
  simpl. rewrite Hc.
  destruct rest as [|c' rest']; [reflexivity|].
  rewrite IH; [reflexivity | exact Hrest | discriminate].
Qed.

Lemma split_fields_delim (f s : string) :
  has_delim f = false ->
  split_fields (f ++ String "^" s) = f :: split_fields s.
Proof.
  induction f as [|c rest IH]; intros Hd.
  - reflexivity.
  - apply has_delim_cons in Hd as [Hc Hrest].
    simpl. rewrite Hc, IH by exact Hrest. reflexivity.
Qed.

Lemma join_fields_cons (f : string) (rest : list string) :
  rest <> [] ->
  join_fields (f :: rest) = (f ++ String "^" (join_fields rest))%string.
Proof. destruct rest; [congruence | reflexivity]. Qed.

(** Writing fields out with ['^'] between them and splitting the line
    gives the fields back, when no field holds a ['^'] and the last one is
    not empty. *)
Theorem split_join_fields (fields : list string) (last_field : string) :
  Forall (fun f => has_delim f = false) (fields ++ [last_field]) ->
  last_field <> EmptyString ->
  split_fields (join_fields (fields ++ [last_field])) = fields ++ [last_field].
Proof.
  intros Hall Hlast. induction fields as [|f fields IH].
  - simpl. inversion Hall; subst. now apply split_fields_single.
  - inversion Hall as [|? ? Hf Hrest]; subst.
    change ((f :: fields) ++ [last_field]) with (f :: (fields ++ [last_field])).
    rewrite join_fields_cons by (destruct fields; discriminate).
    rewrite split_fields_delim by exact Hf.
    now rewrite IH.
Qed.

Lemma split_join_fields_witness :
  split_fields (join_fields (["apple"%string; "3"%string] ++ ["95"%string]))
  = ["apple"%string; "3"%string] ++ ["95"%string].
Proof.
  apply split_join_fields.
  - repeat constructor.
  - discriminate.
Defined.

(** A ['^'] at the end of a line does not open a field: the field count of
    a line is the number of ['^'] in it, plus one when characters follow the
    last ['^']. *)
Lemma split_fields_trailing (s : string) :
  has_delim s = false ->
  split_fields (s ++ String "^" EmptyString) = [s].
Proof. intros H. now rewrite split_fields_delim. Qed.

(** ** The loader: the loop over the lines *)

Lemma new_FoodItem_Some (d : string) (w c : Z) (f : FoodItem) :
  new_FoodItem d w c = Some f ->
  f = {| description := d; weight := w; foodCalories := c |} /\ valid_item f.
Proof.
  unfold new_FoodItem, valid_item.
  destruct (String.eqb_spec d EmptyString) as [|Hd]; [discriminate|].
  destruct (Z.ltb_spec 0 w) as [Hw|Hw]; [|discriminate].
  intros Hf. inversion Hf; subst. simpl. auto.
Qed.

Lemma mapM_Forall2 {A B : Type} (g : A -> option B) (l : list A) (r : list B) :
  mapM g l = Some r -> Forall2 (fun a b => g a = Some b) l r.
Proof.
  revert r. induction l as [|a l IH]; intros r H; simpl in H.
  - inversion H. constructor.
  - destruct (g a) as [b|] eqn:Eb; simpl in H; [|discriminate].
    destruct (mapM g l) as [bs|]; simpl in H; [|discriminate].
    inversion H; subst. constructor; auto.
Qed.

Section LoaderProofs.

Variable stream_extract : string -> Z.

(** One round of the loop on a line after the header. *)
Lemma load_lines_step (line : string) (rest : list string) (n : Z)
    (result : FoodVector) :
  1 <= n ->
  load_lines stream_extract (line :: rest) n result
  = if negb (length (split_fields line) =? 3)%nat then LoadFailure
    else match line_item stream_extract line with
         | Some food => load_lines stream_extract rest (n + 1) (result ++ [food])
         | None => AssertFailure
         end.
Proof.
  intros Hn. cbn [load_lines].
  destruct (Z.eqb_spec (n + 1) 1); [lia|].
  unfold line_item, parse_dbl. cbn [fst snd].
  destruct (split_fields line) as [|d [|w [|c [|x fields]]]]; reflexivity.
Qed.

Lemma line_item_fields (line : string) (food : FoodItem) :
  line_item stream_extract line = Some food ->
  length (split_fields line) = 3%nat.
Proof.
  unfold line_item.
  destruct (split_fields line) as [|d [|w [|c [|x fields]]]]; try discriminate.
  reflexivity.
Qed.

(** The lines that stand for items are read in order. *)
Lemma load_lines_good (pre rest : list string) (v : FoodVector) :
  mapM (line_item stream_extract) pre = Some v ->
  forall n result,
    1 <= n ->
    load_lines stream_extract (pre ++ rest) n result
    = load_lines stream_extract rest (n + Z.of_nat (length pre)) (result ++ v).
Proof.
  revert v. induction pre as [|line pre IH]; intros v Hv n result Hn.
  - inversion Hv. simpl. now rewrite Z.add_0_r, app_nil_r.
  - simpl in Hv.
    destruct (line_item stream_extract line) as [food|] eqn:Efood; simpl in Hv;
      [|discriminate].
    destruct (mapM (line_item stream_extract) pre) as [v'|]; simpl in Hv;
      [|discriminate].
    inversion Hv; subst v.
    change ((line :: pre) ++ rest) with (line :: (pre ++ rest)).
    rewrite load_lines_step by exact Hn.
    rewrite (line_item_fields _ _ Efood), Efood. simpl negb. cbv iota.
    rewrite (IH v' eq_refl) by lia.
    rewrite <- app_assoc. simpl. f_equal. lia.
Qed.

Lemma load_lines_Loaded (lines : list string) :
  forall n result foods,
    1 <= n ->
    load_lines stream_extract lines n result = Loaded foods ->
    exists v, mapM (line_item stream_extract) lines = Some v
              /\ foods = result ++ v.
Proof.
  induction lines as [|line lines IH]; intros n result foods Hn H.
  - simpl in H. inversion H. exists []. now rewrite app_nil_r.
  - rewrite load_lines_step in H by exact Hn.
    destruct (negb (length (split_fields line) =? 3)%nat); [discriminate|].
    destruct (line_item stream_extract line) as [food|] eqn:Efood; [|discriminate].
    assert (Hn' : 1 <= n + 1) by lia.
    destruct (IH _ _ _ Hn' H) as (v & Hv & ->).
    exists (food :: v). simpl. rewrite Efood, Hv. simpl.
    split; [reflexivity | now rewrite <- app_assoc].
Qed.

End LoaderProofs.

(** The loop over the data lines computes the items line by line. *)
Lemma load_items_iff (stream_extract : string -> Z)
    (lines : list string) (foods : FoodVector) :
  load_food_database stream_extract (Some lines) = Loaded foods
  <-> mapM (line_item stream_extract) (tl lines) = Some foods.
Proof.
  destruct lines as [|header data]; simpl.
  - split; intros H; inversion H; reflexivity.
  - split.
    + intros H. assert (H1 : 1 <= 0 + 1) by lia.
      destruct (load_lines_Loaded _ _ _ _ _ H1 H) as (v & Hv & ->).
      exact Hv.
    + intros H.
      rewrite <- (app_nil_r data), (load_lines_good _ _ _ _ H) by lia.
      reflexivity.
Qed.

(** The loader returns a catalog exactly when every line after the first
    stands for an item; the catalog then holds these items, one per line,
    in the order of the lines.  The first line is never looked at. *)
Theorem load_returns_items (stream_extract : string -> Z)
    (lines : list string) (foods : FoodVector) :
  load_food_database stream_extract (Some lines) = Loaded foods
  <-> mapM (line_item stream_extract) (tl lines) = Some foods.
Proof. exact (load_items_iff stream_extract lines foods). Qed.

(** The items of a loaded catalog passed the constructor. *)
Lemma loaded_catalog_valid (stream_extract : string -> Z)
    (lines : list string) (foods : FoodVector) :
  load_food_database stream_extract (Some lines) = Loaded foods ->
  length foods = length (tl lines) /\ Forall valid_item foods.
Proof.
  intros H. apply load_items_iff in H.
  split; [now apply mapM_length in H|].
  apply mapM_Forall2 in H.
  induction H as [|line f data fs Hf _ IH]; constructor; [|exact IH].
  unfold line_item in Hf.
  destruct (split_fields line) as [|d [|w [|c [|x fields]]]]; try discriminate.
  now apply new_FoodItem_Some in Hf.
Qed.

(** A catalog that the loader returns holds one item per data line, and
    every item meets the constructor's assertions: its description is not
    empty and its weight is positive. *)
Theorem load_valid_catalog (stream_extract : string -> Z)
    (lines : list string) (foods : FoodVector) :
  load_food_database stream_extract (Some lines) = Loaded foods ->
  length foods = length (tl lines) /\ Forall valid_item foods.
Proof. exact (loaded_catalog_valid stream_extract lines foods). Qed.

(** A line whose field count is not three is not skipped: when the lines
    before it stand for items, the loader returns [nullptr], whatever
    follows, and the items read so far are lost.  The same holds when the
    file cannot be opened. *)
Theorem load_fails_on_field_count (stream_extract : string -> Z)
    (header bad : string) (pre post : list string) (v : FoodVector) :
  mapM (line_item stream_extract) pre = Some v ->
  length (split_fields bad) <> 3%nat ->
  load_food_database stream_extract (Some (header :: pre ++ bad :: post))
  = LoadFailure.
Proof.
  intros Hpre Hbad. simpl.
  rewrite (load_lines_good _ _ _ _ Hpre) by lia.
  rewrite load_lines_step by lia.
  destruct (Nat.eqb_spec (length (split_fields bad)) 3); [contradiction|].
  reflexivity.
Qed.

(** A line of three fields whose description is empty or whose weight is
    not positive is not skipped either: the constructor's assertion
    fails. *)
Theorem load_asserts_on_invalid_item (stream_extract : string -> Z)
    (header d w c : string) (pre post : list string) (v : FoodVector) (bad : string) :
  mapM (line_item stream_extract) pre = Some v ->
  split_fields bad = [d; w; c] ->
  d = EmptyString \/ stream_extract w <= 0 ->
  load_food_database stream_extract (Some (header :: pre ++ bad :: post))
  = AssertFailure.
Proof.
  intros Hpre Hbad Hinv. simpl.
  rewrite (load_lines_good _ _ _ _ Hpre) by lia.
  rewrite load_lines_step by lia.
  unfold line_item. rewrite Hbad. simpl.
  unfold new_FoodItem.
  destruct Hinv as [-> | Hw]; [reflexivity|].
  destruct (String.eqb d EmptyString); [reflexivity|].
  destruct (Z.ltb_spec 0 (stream_extract w)); [lia | reflexivity].
Qed.

Lemma load_returns_items_witness :
  load_food_database sample_extract (Some sample_file)
  = Loaded [ {| description := "apple"; weight := 3; foodCalories := 95 |};
             {| description := "bread"; weight := 2; foodCalories := 80 |} ].
Proof.
  apply (proj2 (load_returns_items sample_extract sample_file _)).
  reflexivity.
Defined.

Lemma load_valid_catalog_witness :
  length [ {| description := "apple"%string; weight := 3; foodCalories := 95 |};
           {| description := "bread"%string; weight := 2; foodCalories := 80 |} ]
  = length (tl sample_file)
  /\ Forall valid_item
       [ {| description := "apple"%string; weight := 3; foodCalories := 95 |};
         {| description := "bread"%string; weight := 2; foodCalories := 80 |} ].
Proof.
  apply (load_valid_catalog sample_extract sample_file). reflexivity.
Defined.

Lemma load_fails_on_field_count_witness :
  load_food_database sample_extract
    (Some ("header"%string :: ["apple^3^95"%string] ++ "bread^2"%string :: ["milk^8^150"%string]))
  = LoadFailure.
Proof.
  apply (load_fails_on_field_count sample_extract _ _ _ _
           [ {| description := "apple"; weight := 3; foodCalories := 95 |} ]).
  - reflexivity.
  - simpl. lia.
Defined.

Lemma load_asserts_on_invalid_item_witness :
  load_food_database sample_extract
    (Some ("header"%string :: ["apple^3^95"%string] ++ "air^0^0"%string :: ["milk^8^150"%string]))
  = AssertFailure.
Proof.
  apply (load_asserts_on_invalid_item sample_extract _ "air" "0" "0" _ _
           [ {| description := "apple"; weight := 3; foodCalories := 95 |} ]).
  - reflexivity.
  - reflexivity.
  - right. vm_compute. intros H. discriminate H.
Defined.

(** ** filter_food_vector *)

Lemma In_firstn {A : Type} (n : nat) (l : list A) (x : A) :
  In x (firstn n l) -> In x l.
Proof.
  intros H. rewrite <- (firstn_skipn n l). apply in_or_app. now left.
Qed.

Lemma filter_food_vector_Some (source r : FoodVector) (mn mx k : Z) :
  filter_food_vector source mn mx k = Some r ->
  0 < k /\ r = firstn (Z.to_nat k) (filter (in_calorie_range mn mx) source).
Proof.
  unfold filter_food_vector. destruct (Z.leb_spec k 0) as [Hk|Hk]; [discriminate|].
  intros Hr. inversion Hr. split; [lia|].
  apply filter_loop_spec. simpl. lia.
Qed.

(** Size and range of a filtered vector. *)
Lemma filter_bounds (source r : FoodVector) (mn mx k : Z) :
  filter_food_vector source mn mx k = Some r ->
  Z.of_nat (length r) <= k
  /\ Forall (fun f => In f source /\ mn <= foodCalories f <= mx) r.
Proof.
  intros H. apply filter_food_vector_Some in H as [Hk ->]. split.
  - pose proof (firstn_le_length (Z.to_nat k)
                  (filter (in_calorie_range mn mx) source)). lia.
  - apply Forall_forall. intros f Hf. apply In_firstn, filter_In in Hf as [Hin Hr].
    unfold in_calorie_range in Hr. apply andb_prop in Hr as [H1 H2].
    apply Z.leb_le in H1, H2. auto.
Qed.

(** A vector that the filter returns has at most [total_size] items; each
    of them is an item of the source and has its calories in the range. *)
Theorem filter_result_bounds (source r : FoodVector) (mn mx k : Z) :
  filter_food_vector source mn mx k = Some r ->
  Z.of_nat (length r) <= k
  /\ Forall (fun f => In f source /\ mn <= foodCalories f <= mx) r.
Proof. exact (filter_bounds source r mn mx k). Qed.

Lemma filter_result_bounds_witness :
  Z.of_nat (length [item 1 50; item 1 10]) <= 2
  /\ Forall (fun f => In f values5 /\ 10 <= foodCalories f <= 100)
       [item 1 50; item 1 10].
Proof.
  apply (filter_result_bounds values5 _ 10 100 2). reflexivity.
Defined.

(** Filtering a second time with the same range and size changes
    nothing. *)
Theorem filter_idempotent (source r : FoodVector) (mn mx k : Z) :
  filter_food_vector source mn mx k = Some r ->
  filter_food_vector r mn mx k = Some r.
Proof.
  intros H. pose proof (filter_bounds _ _ _ _ _ H) as [Hlen Hall].
  apply filter_food_vector_Some in H as [Hk _].
  unfold filter_food_vector. destruct (Z.leb_spec k 0); [lia|].
  f_equal. rewrite filter_loop_spec by (simpl; lia). simpl.
  rewrite (filter_ext_in _ (fun _ => true)), filter_true.
  - apply firstn_all2. lia.
  - intros f Hf. rewrite Forall_forall in Hall.
    destruct (Hall f Hf) as [_ Hr]. unfold in_calorie_range.
    apply andb_true_intro. split; apply Z.leb_le; lia.
Qed.

Lemma filter_idempotent_witness :
  filter_food_vector [item 1 50; item 1 10] 10 100 2 = Some [item 1 50; item 1 10].
Proof.
  apply (filter_idempotent values5). reflexivity.
Defined.



(** ** Masks and the items they select *)

Lemma subset_from_picks (b : Z) (l pre : FoodVector) :
  exists idxs,
    picks (pre ++ l) idxs (subset_from b (Z.of_nat (length pre)) l)
    /\ increasing idxs
    /\ Forall (fun i => (length pre <= i)%nat) idxs.
Proof.
  revert pre. induction l as [|f l IH]; intros pre.
  - exists []. repeat constructor.
  - destruct (IH (pre ++ [f])) as (idxs & Hp & Hinc & Hge).
    rewrite <- app_assoc in Hp. simpl in Hp.
    rewrite length_app in Hp, Hge. simpl in Hp, Hge.
    replace (Z.of_nat (length pre + 1)) with (Z.of_nat (length pre) + 1) in Hp by lia.
    simpl. destruct (Z.testbit b (Z.of_nat (length pre))).
    + exists (length pre :: idxs). repeat split.
      * constructor; [|exact Hp].
        rewrite nth_error_app2 by lia. now rewrite Nat.sub_diag.
      * constructor; [exact Hinc|].
        eapply Forall_impl; [|exact Hge]. simpl. intros; lia.
      * constructor; [lia|].
        eapply Forall_impl; [|exact Hge]. simpl. intros; lia.
    + exists idxs. repeat split; try assumption.
      eapply Forall_impl; [|exact Hge]. simpl. intros; lia.
Qed.

Lemma subset_weight_positive (b j : Z) (l : FoodVector) :
  positive_weights l ->
  total_weight_of (subset_from b j l) <= 0 -> subset_from b j l = [].
Proof.
  intros Hl Hle.
  assert (Hnn : nonneg_weights l).
  { unfold nonneg_weights. eapply Forall_impl; [|exact Hl]. simpl. intros; lia. }
  revert j Hle. induction Hl as [|f l Hf Hl IH]; intros j Hle; simpl in *.
  - reflexivity.
  - inversion Hnn; subst.
    destruct (Z.testbit b j).
    + rewrite total_weight_cons in Hle.
      pose proof (subset_weight_nonneg b (j + 1) l ltac:(assumption)). lia.
    + apply IH; assumption.
Qed.

Lemma subset_from_In (b j : Z) (l : FoodVector) (f : FoodItem) :
  In f (subset_from b j l) ->
  exists i, nth_error l i = Some f /\ Z.testbit b (j + Z.of_nat i) = true.
Proof.
  revert j. induction l as [|g l IH]; intros j Hin; simpl in Hin; [contradiction|].
  destruct (Z.testbit b j) eqn:Eb.
  - destruct Hin as [-> | Hin].
    + exists 0%nat. simpl. now rewrite Z.add_0_r.
    + destruct (IH _ Hin) as (i & Hi & Hb). exists (S i). simpl.
      split; [exact Hi|]. rewrite <- Hb. f_equal. lia.
  - destruct (IH _ Hin) as (i & Hi & Hb). exists (S i). simpl.
    split; [exact Hi|]. rewrite <- Hb. f_equal. lia.
Qed.

(** Taking one selected item out of a mask takes its weight and calories
    out of the totals. *)
Lemma subset_from_clearbit (b : Z) (l : FoodVector) (f : FoodItem) :
  forall (i : nat) (j : Z),
    0 <= j ->
    nth_error l i = Some f ->
    Z.testbit b (j + Z.of_nat i) = true ->
    total_weight_of (subset_from b j l)
    = weight f + total_weight_of (subset_from (Z.clearbit b (j + Z.of_nat i)) j l)
    /\ total_calories_of (subset_from b j l)
       = foodCalories f
         + total_calories_of (subset_from (Z.clearbit b (j + Z.of_nat i)) j l).
Proof.
  induction l as [|g l IH]; intros i j Hj Hi Hb; [destruct i; discriminate|].
  destruct i as [|i]; simpl in Hi.
  - inversion Hi; subst g. simpl Z.of_nat in *. rewrite Z.add_0_r in *.
    simpl. rewrite Hb, Z.clearbit_eq.
    rewrite (subset_from_ext (Z.clearbit b j) b (j + 1) l)
      by (intros k Hk; apply Z.clearbit_neq; lia).
    rewrite total_weight_cons, total_calories_cons. auto.
  - replace (j + Z.of_nat (S i)) with ((j + 1) + Z.of_nat i) in * by lia.
    destruct (IH i (j + 1) ltac:(lia) Hi Hb) as [Hw Hc].
    simpl. rewrite Z.clearbit_neq by lia.
    destruct (Z.testbit b j);
      rewrite ?total_weight_cons, ?total_calories_cons; lia.
Qed.

Lemma clearbit_sub (b i : Z) :
  0 <= i -> Z.testbit b i = true -> Z.clearbit b i = b - 2 ^ i.
Proof.
  intros Hi Hb. rewrite Z.clearbit_spec'. symmetry.
  apply Z.sub_nocarry_ldiff. apply Z.bits_inj'. intros n Hn.
  rewrite Z.ldiff_spec, Z.bits_0, Z.pow2_bits_eqb by exact Hi.
  destruct (Z.eqb_spec i n) as [->|]; [now rewrite Hb | reflexivity].
Qed.

(** ** exhaustive_max_calories *)



(** A vector returned by the search lists catalog items at strictly
    increasing catalog indices: in catalog order, none twice. *)
Theorem exhaustive_catalog_order (foods best : FoodVector) (total_weight : Z) :
  exhaustive_max_calories foods total_weight = Some best ->
  exists idxs, picks foods idxs best /\ increasing idxs.
Proof.
  intros H.
  destruct (exhaustive_result_shape _ _ _ H) as [-> | (b0 & -> & _)].
  - exists []. repeat constructor.
  - destruct (subset_from_picks b0 foods []) as (idxs & Hp & Hinc & _).
    exists idxs. auto.
Qed.

Lemma exhaustive_catalog_order_witness :
  exists idxs, picks catalog4 idxs [item 2 3; item 3 4] /\ increasing idxs.
Proof.
  apply (exhaustive_catalog_order catalog4 _ 5). reflexivity.
Defined.

(** With positive weights and a capacity that is zero or negative, the
    search returns the empty vector. *)
Theorem exhaustive_nothing_to_carry (foods : FoodVector) (total_weight : Z) :
  (length foods < 64)%nat -> positive_weights foods -> total_weight <= 0 ->
  exhaustive_max_calories foods total_weight = Some [].
Proof.
  intros Hn Hw HW. apply exhaustive_empty_when_nothing_fits; [exact Hn|].
  intros b Hfit. apply subset_weight_positive; [exact Hw|].
  unfold fits, subset_of in Hfit. lia.
Qed.

Lemma exhaustive_nothing_to_carry_witness :
  exhaustive_max_calories catalog4 0 = Some [].
Proof.
  apply exhaustive_nothing_to_carry.
  - simpl. lia.
  - unfold positive_weights, catalog4. repeat constructor; simpl; lia.
  - lia.
Defined.

(** With non-negative weights, the search never returns an item of zero or
    negative calories. *)
Theorem exhaustive_skips_nonpositive (foods best : FoodVector) (total_weight : Z) :
  nonneg_weights foods ->
  exhaustive_max_calories foods total_weight = Some best ->
  Forall (fun f => 0 < foodCalories f) best.
Proof.
  intros Hw H. unfold exhaustive_max_calories in H.
  destruct (Int32.wrap (Z.of_nat (length foods)) <? 64); [|discriminate].
  inversion H as [Hbest]. clear H.
  destruct (Nat.le_gt_cases (length foods) 30) as [Hn|Hn].
  - destruct (exhaustive_search_covered foods total_weight Hn)
      as (Hc & _ & _ & [Hnil | (b0 & Hb0 & Heq & Hfit & Hpos & Hleast)]).
    + rewrite Hnil. constructor.
    + apply Forall_forall. intros f Hf.
      destruct (Z.lt_ge_cases 0 (foodCalories f)) as [|Hcal]; [assumption|exfalso].
      rewrite Heq in Hf, Hc. apply subset_from_In in Hf as (i & Hi & Hbit).
      simpl in Hbit.
      assert (H0 : 0 <= 0) by lia.
      destruct (subset_from_clearbit b0 foods f i 0 H0 Hi Hbit) as [Hwt Hcl].
      simpl in Hwt, Hcl.
      assert (Hsub : Z.clearbit b0 (Z.of_nat i) = b0 - 2 ^ Z.of_nat i)
        by (apply clearbit_sub; [lia | exact Hbit]).
      assert (Hpow : 0 < 2 ^ Z.of_nat i) by (apply Z.pow_pos_nonneg; lia).
      assert (Hnn : 0 <= Z.clearbit b0 (Z.of_nat i)).
      { rewrite Z.clearbit_spec'. apply Z.ldiff_nonneg. left. lia. }
      assert (Hwf : 0 <= weight f).
      { unfold nonneg_weights in Hw. rewrite Forall_forall in Hw.
        apply Hw. eapply nth_error_In; eauto. }
      assert (Hlt : 0 <= Z.clearbit b0 (Z.of_nat i) < b0) by lia.
      specialize (Hleast (Z.clearbit b0 (Z.of_nat i)) Hlt).
      unfold fits, value, subset_of in *. lia.
  - rewrite exhaustive_search_large by lia. constructor.
Qed.

Lemma exhaustive_skips_nonpositive_witness :
  Forall (fun f => 0 < foodCalories f) [item 1 7].
Proof.
  apply (exhaustive_skips_nonpositive [item 1 0; item 1 7; item 1 (-2)] _ 3).
  - repeat constructor; simpl; lia.
  - reflexivity.
Defined.

(** ** dynamic_max_calories *)

Lemma positive_nonneg (foods : FoodVector) :
  positive_weights foods -> nonneg_weights foods.
Proof.
  unfold positive_weights, nonneg_weights. apply Forall_impl. intros f Hf. lia.
Qed.

(** With positive weights and capacity 0 the dynamic program returns the
    empty vector. *)
Theorem dynamic_zero_capacity (foods : FoodVector) :
  positive_weights foods -> dynamic_max_calories foods 0 = Some [].
Proof.
  intros Hw.
  assert (H0 : 0 <= 0 < Int32.max_int) by (unfold Int32.max_int; lia).
  destruct (dynamic_spec foods 0 (positive_nonneg _ Hw) H0)
    as (T & best & _ & Hbest & _ & _ & Hfit & (b & Hb)).
  rewrite Hbest. f_equal.
  rewrite <- total_weight_rev, Hb in Hfit.
  apply (subset_weight_positive b 0 foods Hw) in Hfit.
  unfold subset_of in Hb. rewrite Hfit in Hb.
  destruct best as [|f best]; [reflexivity|].
  simpl in Hb. destruct (rev best); discriminate.
Qed.

Lemma dynamic_zero_capacity_witness : dynamic_max_calories catalog4 0 = Some [].
Proof.
  apply dynamic_zero_capacity.
  unfold positive_weights, catalog4. repeat constructor; simpl; lia.
Defined.

Lemma zrange_nonpos (k : Z) : k <= 0 -> zrange k = [].
Proof.
  intros H. unfold zrange. replace (Z.to_nat k) with 0%nat by lia. reflexivity.
Qed.

Lemma fill_table_empty_rows (total_weight : Z) (rest : FoodVector) :
  total_weight < 0 ->
  forall i T T',
    fill_table total_weight rest i T = Some T' ->
    Forall (fun row => row = []) T -> Forall (fun row => row = []) T'.
Proof.
  intros HW. induction rest as [|f rest IH]; intros i T T' HT Hall; simpl in HT.
  - now inversion HT; subst.
  - destruct (nth_error T i) as [prev|]; simpl in HT; [|discriminate].
    unfold next_row in HT. rewrite zrange_nonpos in HT by lia. simpl in HT.
    apply (IH _ _ _ HT). apply Forall_app. split; [exact Hall | now repeat constructor].
Qed.

Lemma get2_empty_rows (T : list (list Z)) (i : nat) (c : Z) :
  Forall (fun row => row = []) T -> get2 T i c = None.
Proof.
  intros Hall. unfold get2.
  destruct (nth_error T i) as [row|] eqn:E; [|reflexivity].
  rewrite Forall_forall in Hall.
  rewrite (Hall row (nth_error_In _ _ E)). simpl. unfold get.
  destruct (c <? 0); [reflexivity|]. now destruct (Z.to_nat c).
Qed.

(** At a negative capacity the table has no columns, and on a catalog that
    is not empty the traceback reads it out of range: no vector is
    returned. *)
Theorem dynamic_negative_capacity (foods : FoodVector) (total_weight : Z) :
  total_weight < 0 -> foods <> [] ->
  dynamic_max_calories foods total_weight = None.
Proof.
  intros HW Hne. unfold dynamic_max_calories.
  destruct (Int32.max_int <=? total_weight); [reflexivity|].
  destruct (fill_table total_weight foods 0 [zero_row total_weight]) as [T|] eqn:ET;
    [|reflexivity].
  simpl.
  assert (Hrows : Forall (fun row => row = []) T).
  { apply (fill_table_empty_rows _ _ HW _ _ _ ET).
    repeat constructor. unfold zero_row. now rewrite zrange_nonpos by lia. }
  destruct foods as [|f foods]; [congruence|].
  change (length (f :: foods)) with (S (length foods)).
  rewrite traceback_succ, get2_empty_rows by exact Hrows. reflexivity.
Qed.

Lemma dynamic_negative_capacity_witness :
  dynamic_max_calories catalog4 (-1) = None.
Proof.
  apply dynamic_negative_capacity.
  - lia.
  - discriminate.
Defined.





Section TracebackChoice.

Variable total_weight : Z.
Variable foods : FoodVector.
Variable T : list (list Z).
Hypothesis capacity_nonneg : 0 <= total_weight.
Hypothesis weights_nonneg : nonneg_weights foods.
Hypothesis table : table_ok total_weight foods T.


End TracebackChoice.




(** ** The solvers together *)



(** ** The loader and the solvers *)


